(** * The prover-input preparer of zk-pig (src/generator/prepare.go)

    A shallow embedding of the four-stage [Prepare] pipeline: context
    build, pre-state hydration, stateless execution and prover-input
    assembly.

    Go values are modelled as follows.
    - [*T] results that may be nil are [option T]; a dereference of nil
      and an index past the end of a slice are faults ([Fault]) of the
      run, not errors.
    - [error] is the text of the error; [fmt.Errorf("...: %v", err)]
      is string concatenation.  A Go result pair of a pointer and an
      error is a pair of options, so that [(nil, nil)] can be written
      down.
    - Objects reached through pointers and mutated in place live in the
      [World]: the [*PreflightData] argument, the in-memory database
      shared by the trie database, the state database and the header
      chain, and the [*state.StateDB] built for the execution.
    - Go maps are [gmap]/[gset]; a [range] over a map visits the entries
      in an order chosen by the runtime, here the parameter
      [range_order].
    - Calls to the logger have no effect on the result and are left out. *)

From stdpp Require Import base numbers strings pretty list gmap sets.

Open Scope string_scope.
Open Scope Z_scope.
Open Scope list_scope.

Abbreviation Hash := string (only parsing).
Abbreviation Bytes := string (only parsing).
Abbreviation Error := string (only parsing).

(** ** Data model *)

(** go-ethereum [core/types]. *)
Module gethtypes.
Record Header := mkHeader {
  ParentHash : Hash;
  Root : Hash;
  Number : Z;
  Timestamp : Z
}.

Abbreviation Transaction := string (only parsing).
Abbreviation Withdrawal := string (only parsing).
Abbreviation Receipt := string (only parsing).

(** [types.Block] is immutable; its parts are read through accessor
    methods. *)
Record Block := mkBlock {
  Header_ : Header;
  Transactions : list Transaction;
  Uncles : list Header;
  Withdrawals : list Withdrawal
}.
End gethtypes.

(** go-ethereum [params]. *)
Module params.
Record ChainConfig := mkChainConfig {
  ChainID : Z;
  Forks : list (string * Z)
}.
End params.

(** The block as returned by the RPC endpoint ([ethrpc.Block]): the header
    fields and the block hash, with the body. *)
Module ethrpc.
Record Block := mkBlock {
  Header_ : gethtypes.Header;
  Hash_ : Hash;
  Transactions : list gethtypes.Transaction;
  Uncles : list gethtypes.Header;
  Withdrawals : list gethtypes.Withdrawal
}.
Definition Number (b : Block) : Z := gethtypes.Number (Header_ b).
Definition Root (b : Block) : Hash := gethtypes.Root (Header_ b).
End ethrpc.

(** [trie] (proofs and node sets). *)
Module trie.
Record StorageProof := mkStorageProof {
  Key : string;
  Proof : list Bytes
}.
Record AccountProof := mkAccountProof {
  Address : string;
  AccountProof_ : list Bytes;
  Storage : list StorageProof
}.
(** (owner hash, path, node hash) to encoded node *)
Abbreviation NodeSet := (gmap (Hash * string * Hash) Bytes) (only parsing).
End trie.

(** go-ethereum [core/stateless]: the witness of an execution.  [Codes] and
    [State] are Go maps from string to the empty struct. *)
Module stateless.
Record Witness := mkWitness {
  Headers : list gethtypes.Header;
  Codes : gset string;
  State : gset string
}.
End stateless.

(** The output records ([prover-input]). *)
Module input.
Record Block := mkBlock {
  Header : gethtypes.Header;
  Transactions : list gethtypes.Transaction;
  Uncles : list gethtypes.Header;
  Withdrawals : list gethtypes.Withdrawal
}.
Record Witness := mkWitness {
  Ancestors : list gethtypes.Header;
  Codes : list Bytes;
  State : list Bytes
}.
Record ProverInput := mkProverInput {
  ChainConfig : params.ChainConfig;
  Blocks : list Block;
  Witness_ : Witness
}.
End input.

(** The input record of the preparer.  [Codes] maps code hashes to
    bytecodes. *)
Record PreflightData := mkPreflightData {
  ChainConfig : params.ChainConfig;
  Block : ethrpc.Block;
  Ancestors : list gethtypes.Header;
  PreStateProofs : list trie.AccountProof;
  PostStateProofs : list trie.AccountProof;
  Codes : gmap Hash Bytes
}.

(** [context.Context] with the values the tag package attaches, and the
    cancellation signal it carries. *)
Module context.
Inductive TagValue :=
| TagString (s : string)
| TagInt64 (n : Z).

Record Context := mkContext {
  cancelled : bool;
  component : string;
  tags : list (string * TagValue)
}.

Definition Background : Context :=
  {| cancelled := false; component := ""; tags := [] |}.

Definition WithCancel (b : bool) (ctx : Context) : Context :=
  {| cancelled := b; component := component ctx; tags := tags ctx |}.
End context.

Module tag.
Import context.
Definition WithComponent (ctx : Context) (c : string) : Context :=
  {| cancelled := cancelled ctx; component := c; tags := tags ctx |}.
Definition WithTags (ctx : Context) (ts : list (string * TagValue)) : Context :=
  {| cancelled := cancelled ctx; component := component ctx;
     tags := tags ctx ++ ts |}.
End tag.

(** [big.Int.Int64]: the low 64 bits of the magnitude, reinterpreted as a
    signed word, negated for a negative number. *)
Definition to_int64 (u : Z) : Z :=
  let r := u `mod` 2 ^ 64 in
  if decide (r < 2 ^ 63) then r else r - 2 ^ 64.

Definition Int64 (z : Z) : Z :=
  let v := to_int64 (Z.abs z) in
  if decide (z < 0) then to_int64 (- v) else v.

(** The header chain: the chain configuration, over the header space of
    the shared database. *)
Record HeaderChain := mkHeaderChain {
  hc_config : params.ChainConfig
}.

(** The state object of go-ethereum, as far as the preparer reads it. *)
Record StateDB := mkStateDB {
  originalRoot : Hash;
  witness : stateless.Witness
}.

(** The state object is reached through a pointer; there is one per run. *)
Inductive StateRef := TheState.
(** So is the state database over the in-memory disk. *)
Inductive DatabaseRef := TheDatabase.
Inductive AccessTrackerManager := NewAccessTrackerManager.

Module vm.
Record Config := mkConfig {
  NoBaseFee : bool;
  EnablePreimageRecording : bool;
  StatelessSelfValidation : bool
}.
End vm.

Module evm.
Record ExecParams := mkExecParams {
  VMConfig : vm.Config;
  Block : gethtypes.Block;
  Validate : bool;
  Chain : HeaderChain;
  State : StateRef
}.
End evm.

Record preparerContext := mkPreparerContext {
  ctx : context.Context;
  trackers : AccessTrackerManager;
  stateDB : DatabaseRef;
  hc : HeaderChain
}.

(** ** The store *)

(** The in-memory key-value store behind the trie database, by key space. *)
Record Disk := mkDisk {
  headerSpace : list gethtypes.Header;
  codeSpace : gmap Hash Bytes;
  trieSpace : gmap Hash Bytes
}.

Definition NewMemoryDatabase : Disk :=
  {| headerSpace := []; codeSpace := ∅; trieSpace := ∅ |}.

(** The calls the preparer makes to its collaborators, in the order made. *)
Inductive Call :=
| CallNewChain (cfg : params.ChainConfig)
| CallWriteHeaders (headers : list gethtypes.Header)
| CallGetHeaderByNumber (n : Z)
| CallNodeSetFromStateTransitionProofs
    (preRoot postRoot : Hash) (pre post : list trie.AccountProof)
| CallUpdate (parentRoot newRoot : Hash) (blockNumber : Z) (nodes : trie.NodeSet)
| CallWriteCodes (codes : list Bytes)
| CallStateNew (root : Hash)
| CallExecute (c : context.Context) (p : evm.ExecParams).

Record World := mkWorld {
  w_preflight : PreflightData;
  w_disk : Disk;
  w_state : option StateDB;
  w_calls : list Call
}.

Definition init_world (data : PreflightData) : World :=
  {| w_preflight := data; w_disk := NewMemoryDatabase;
     w_state := None; w_calls := [] |}.

(** ** Runs: state, faults *)

Inductive fault := IndexOutOfRange | NilPointerDereference.

Inductive res (A : Type) :=
| Done (a : A) (w : World)
| Fault (f : fault) (w : World).
Arguments Done {A} a w.
Arguments Fault {A} f w.

Definition M (A : Type) : Type := World → res A.

Definition ret {A} (a : A) : M A := λ w, Done a w.

Definition bind {A B} (m : M A) (k : A → M B) : M B :=
  λ w, match m w with
       | Done a w' => k a w'
       | Fault f w' => Fault f w'
       end.

Notation "'let*' x := m 'in' k" := (bind m (λ x, k))
  (at level 10, x name, m at level 100, k at level 200, only parsing).
Notation "'let*' ( x , y ) := m 'in' k" := (bind m (λ p, let (x, y) := p in k))
  (at level 10, x name, y name, m at level 100, k at level 200, only parsing).

Definition panic {A} (f : fault) : M A := λ w, Fault f w.

(** [*p] for a pointer that may be nil. *)
Definition deref {A} (p : option A) : M A :=
  match p with
  | Some a => ret a
  | None => panic NilPointerDereference
  end.

(** [s[i]] on a slice. *)
Definition index {A} (s : list A) (i : nat) : M A :=
  match s !! i with
  | Some a => ret a
  | None => panic IndexOutOfRange
  end.

Definition world_of {A} (r : res A) : World :=
  match r with
  | Done _ w => w
  | Fault _ w => w
  end.

Definition load_inputs : M PreflightData := λ w, Done (w_preflight w) w.
Definition load_disk : M Disk := λ w, Done (w_disk w) w.
Definition load_state (_ : StateRef) : M StateDB := λ w,
  match w_state w with
  | Some s => Done s w
  | None => Fault NilPointerDereference w
  end.

Definition store_disk (d : Disk) : M unit := λ w,
  Done tt {| w_preflight := w_preflight w; w_disk := d;
             w_state := w_state w; w_calls := w_calls w |}.
Definition store_state (s : StateDB) : M unit := λ w,
  Done tt {| w_preflight := w_preflight w; w_disk := w_disk w;
             w_state := Some s; w_calls := w_calls w |}.
Definition record_call (c : Call) : M unit := λ w,
  Done tt {| w_preflight := w_preflight w; w_disk := w_disk w;
             w_state := w_state w; w_calls := w_calls w ++ [c] |}.

(** ** Collaborators

    The packages the preparer drives but does not contain: the chain
    constructor, the proof-to-node-set builder, the trie database, the
    state opener, the conversion of the RPC block and the EVM executor
    with its decorators. *)

(** An executor reads the database and runs on the state object, which it
    updates in place (the witness is read from it afterwards). *)
Definition Executor : Type :=
  context.Context → evm.ExecParams → Disk → StateDB →
  (Error + list gethtypes.Receipt) * StateDB.

Record Collaborators := mkCollaborators {
  (** the failure of wiring the chain, if any *)
  chain_init_error : params.ChainConfig → option Error;
  (** [crypto.Keccak256Hash] *)
  keccak256 : Bytes → Hash;
  (** [trie.NodeSetFromStateTransitionProofs] *)
  NodeSetFromStateTransitionProofs :
    Hash → Hash → list trie.AccountProof → list trie.AccountProof →
    Error + trie.NodeSet;
  (** [triedb.Database.Update] on the node space *)
  TrieDB_Update :
    gmap Hash Bytes → Hash → Hash → Z → trie.NodeSet → Error + gmap Hash Bytes;
  (** [gethstate.New] *)
  StateDB_New : Hash → Disk → Error + StateDB;
  (** [ethrpc.Block.Block] *)
  Block_Block : ethrpc.Block → gethtypes.Block;
  (** [evm.NewExecutor], [evm.ExecutorWithLog], [evm.ExecutorWithTags] *)
  NewExecutor : Executor;
  ExecutorWithLog : Executor → Executor;
  ExecutorWithTags : string → Executor → Executor
}.

(** *** The key spaces of the store *)

(** Modelled from the spec: [ethereum.WriteHeaders] (src/ethereum, absent)
    writes every header into the header space of the store. *)
Definition WriteHeaders (d : Disk) (headers : list gethtypes.Header) : Disk :=
  {| headerSpace := foldl (λ sp h, sp ++ [h]) (headerSpace d) headers;
     codeSpace := codeSpace d;
     trieSpace := trieSpace d |}.

(** Modelled from the spec: [HeaderChain.GetHeaderByNumber] answers for the
    headers written to the header space and finds nothing for any other
    number. *)
Definition GetHeaderByNumber (d : Disk) (n : Z) : option gethtypes.Header :=
  find (λ h, bool_decide (gethtypes.Number h = n)) (headerSpace d).

(** Modelled from the spec: [ethereum.WriteCodes] (src/ethereum, absent)
    writes every bytecode into the code space, under its code hash. *)
Definition WriteCodes (keccak : Bytes → Hash) (d : Disk) (codes : list Bytes) : Disk :=
  {| headerSpace := headerSpace d;
     codeSpace := foldl (λ sp code, <[keccak code := code]> sp) (codeSpace d) codes;
     trieSpace := trieSpace d |}.

(** Modelled from the spec: [ethereum.NewChain] (src/ethereum, absent) seeds
    the header chain with the chain configuration only. *)
Definition NewChain (init_error : params.ChainConfig → option Error)
    (cfg : params.ChainConfig) : Error + HeaderChain :=
  match init_error cfg with
  | Some err => inl err
  | None => inr {| hc_config := cfg |}
  end.

Definition Config (hc : HeaderChain) : params.ChainConfig := hc_config hc.

(** ** The preparer *)

Section Preparer.
Context (E : Collaborators).
(** The order in which the runtime visits the entries of a map. *)
Context (range_order : list string → list string).

(** [for _, v := range m] and [for k := range s] *)
Definition range_values (m : gmap Hash Bytes) : list Bytes :=
  range_order ((map_to_list m).*2).
Definition range_keys (s : gset string) : list string :=
  range_order (elements s).

(** *** Calls *)

Definition ethereum_NewChain (cfg : params.ChainConfig) (_ : DatabaseRef)
    : M (Error + HeaderChain) :=
  let* _ := record_call (CallNewChain cfg) in
  ret (NewChain (chain_init_error E) cfg).

Definition ethereum_WriteHeaders (_ : DatabaseRef)
    (headers : list gethtypes.Header) : M unit :=
  let* _ := record_call (CallWriteHeaders headers) in
  let* d := load_disk in
  store_disk (WriteHeaders d headers).

Definition ethereum_WriteCodes (_ : DatabaseRef) (codes : list Bytes) : M unit :=
  let* _ := record_call (CallWriteCodes codes) in
  let* d := load_disk in
  store_disk (WriteCodes (keccak256 E) d codes).

Definition hc_GetHeaderByNumber (_ : HeaderChain) (n : Z)
    : M (option gethtypes.Header) :=
  let* _ := record_call (CallGetHeaderByNumber n) in
  let* d := load_disk in
  ret (GetHeaderByNumber d n).

Definition trie_NodeSetFromStateTransitionProofs (preRoot postRoot : Hash)
    (pre post : list trie.AccountProof) : M (Error + trie.NodeSet) :=
  let* _ := record_call
              (CallNodeSetFromStateTransitionProofs preRoot postRoot pre post) in
  ret (NodeSetFromStateTransitionProofs E preRoot postRoot pre post).

Definition triedb_Update (_ : DatabaseRef) (parentRoot newRoot : Hash)
    (blockNumber : Z) (nodes : trie.NodeSet) : M (option Error) :=
  let* _ := record_call (CallUpdate parentRoot newRoot blockNumber nodes) in
  let* d := load_disk in
  match TrieDB_Update E (trieSpace d) parentRoot newRoot blockNumber nodes with
  | inl err => ret (Some err)
  | inr sp =>
      let* _ := store_disk {| headerSpace := headerSpace d;
                              codeSpace := codeSpace d;
                              trieSpace := sp |} in
      ret None
  end.

Definition gethstate_New (root : Hash) (_ : DatabaseRef)
    : M (option StateRef * option Error) :=
  let* _ := record_call (CallStateNew root) in
  let* d := load_disk in
  match StateDB_New E root d with
  | inl err => ret (None, Some err)
  | inr s =>
      let* _ := store_state s in
      ret (Some TheState, None)
  end.

Definition Execute (ex : Executor) (c : context.Context)
    (params : option evm.ExecParams)
    : M (option (list gethtypes.Receipt) * option Error) :=
  let* p := deref params in
  let* _ := record_call (CallExecute c p) in
  let* d := load_disk in
  let* s := load_state (evm.State p) in
  let '(r, s') := ex c p d s in
  let* _ := store_state s' in
  match r with
  | inl err => ret (None, Some err)
  | inr receipts => ret (Some receipts, None)
  end.

(** *** The stages *)

Definition prepareContext (ctx : context.Context)
    : M (option preparerContext * option Error) :=
  let* inputs := load_inputs in
  let trackers := NewAccessTrackerManager in
  let* _ := store_disk NewMemoryDatabase in
  let stateDB := TheDatabase in
  let* r := ethereum_NewChain (ChainConfig inputs) stateDB in
  match r with
  | inl err => ret (None, Some ("failed to create chain: " +:+ err))
  | inr hc =>
      ret (Some {| ctx := ctx; trackers := trackers;
                   stateDB := stateDB; hc := hc |}, None)
  end.

Definition preparePreState (valCtx : option preparerContext) : M (option Error) :=
  let* c := deref valCtx in
  let* inputs := load_inputs in
  let* _ := ethereum_WriteHeaders (stateDB c) (Ancestors inputs) in
  let* parentHeader := index (Ancestors inputs) 0 in
  let* genesisHeader := hc_GetHeaderByNumber (hc c) 0 in
  let* r := trie_NodeSetFromStateTransitionProofs
              (gethtypes.Root parentHeader) (ethrpc.Root (Block inputs))
              (PreStateProofs inputs) (PostStateProofs inputs) in
  match r with
  | inl err => ret (Some ("failed to create state nodes: " +:+ err))
  | inr nodeSet =>
      let* genesis := deref genesisHeader in
      let* err := triedb_Update (stateDB c) (gethtypes.Root parentHeader)
                    (gethtypes.Root genesis) 0 nodeSet in
      match err with
      | Some err =>
          ret (Some ("failed to update trie db with state nodes: " +:+ err))
      | None =>
          let codes := foldl (λ codes code, codes ++ [code]) []
                         (range_values (Codes inputs)) in
          let* _ := ethereum_WriteCodes (stateDB c) codes in
          ret None
      end
  end.

Definition prepareExecParams (valCtx : option preparerContext)
    : M (option evm.ExecParams * option Error) :=
  let* c := deref valCtx in
  let* inputs := load_inputs in
  let* parentHeader := index (Ancestors inputs) 0 in
  let* (preState, err) := gethstate_New (gethtypes.Root parentHeader) (stateDB c) in
  match err with
  | Some err =>
      ret (None, Some ("failed to create pre-state from parent root "
                       +:+ gethtypes.Root parentHeader +:+ ": " +:+ err))
  | None =>
      let* preState := deref preState in
      ret (Some {| evm.VMConfig :=
                     {| vm.NoBaseFee := false;
                        vm.EnablePreimageRecording := false;
                        vm.StatelessSelfValidation := true |};
                   evm.Block := Block_Block E (Block inputs);
                   evm.Validate := true;
                   evm.Chain := hc c;
                   evm.State := preState |}, None)
  end.

Definition execute (valCtx : option preparerContext)
    (execParams : option evm.ExecParams) : M (option Error) :=
  let* c := deref valCtx in
  let* (_, err) := Execute (ExecutorWithTags E "evm"
                               (ExecutorWithLog E (NewExecutor E)))
                      (ctx c) execParams in
  match err with
  | Some err => ret (Some ("failed to execute block: " +:+ err))
  | None => ret None
  end.

Definition prepareProverInput (_ : option preparerContext)
    (execParams : option evm.ExecParams) : M (option input.ProverInput) :=
  let* p := deref execParams in
  let* st := load_state (evm.State p) in
  let witness := witness st in
  let codes := foldl (λ codes code, codes ++ [code]) []
                 (range_keys (stateless.Codes witness)) in
  let state := foldl (λ state node, state ++ [node]) []
                 (range_keys (stateless.State witness)) in
  ret (Some {| input.ChainConfig := Config (evm.Chain p);
               input.Blocks :=
                 [ {| input.Header := gethtypes.Header_ (evm.Block p);
                      input.Transactions := gethtypes.Transactions (evm.Block p);
                      input.Uncles := gethtypes.Uncles (evm.Block p);
                      input.Withdrawals := gethtypes.Withdrawals (evm.Block p) |} ];
               input.Witness_ :=
                 {| input.Ancestors := stateless.Headers witness;
                    input.Codes := codes;
                    input.State := state |} |}).

Definition prepare (ctx : context.Context)
    : M (option input.ProverInput * option Error) :=
  let* (valCtx, err) := prepareContext ctx in
  match err with
  | Some err =>
      ret (None, Some ("failed to prepare validation context: " +:+ err))
  | None =>
  let* err := preparePreState valCtx in
  match err with
  | Some err =>
      ret (None, Some ("failed to prefill validation database: " +:+ err))
  | None =>
  let* (execParams, err) := prepareExecParams valCtx in
  match err with
  | Some err =>
      ret (None, Some ("failed to prepare validation exec params: " +:+ err))
  | None =>
  let* err := execute valCtx execParams in
  match err with
  | Some err => ret (None, Some ("validation execution failed: " +:+ err))
  | None =>
  let* proverInput := prepareProverInput valCtx execParams in
  ret (proverInput, None)
  end end end end.

Definition Prepare (ctx : context.Context)
    : M (option input.ProverInput * option Error) :=
  let* data := load_inputs in
  let ctx := tag.WithComponent ctx "prepare" in
  let ctx := tag.WithTags ctx
    [ ("chain.id", context.TagString (pretty (params.ChainID (ChainConfig data))));
      ("block.number", context.TagInt64 (Int64 (ethrpc.Number (Block data))));
      ("block.hash", context.TagString (ethrpc.Hash_ (Block data))) ] in
  let* (inputs, err) := prepare ctx in
  match err with
  | Some err => ret (None, Some err)
  | None => ret (inputs, None)
  end.

End Preparer.

(** ** A small chain to run the preparer on

    Collaborators simple enough to evaluate: hashing tags the bytes, the
    node-set builder rejects a proof without nodes, the trie database
    installs every node, the state opens at any root, and the executor
    runs an empty block (the post-state root is the root the state was
    opened at) and reports the codes of the store in its witness. *)
Module Sample.

Definition keccak (b : Bytes) : Hash := "0x" +:+ b.

Definition nodeSet (preRoot postRoot : Hash)
    (pre post : list trie.AccountProof) : Error + trie.NodeSet :=
  if forallb (λ p, negb (bool_decide (trie.AccountProof_ p = []))) (pre ++ post)
  then inr ∅
  else inl "proof root mismatch".

Definition update (sp : gmap Hash Bytes) (parentRoot newRoot : Hash)
    (blockNumber : Z) (nodes : trie.NodeSet) : Error + gmap Hash Bytes :=
  inr (map_fold (λ k node acc, <[k.2 := node]> acc) sp nodes).

Definition open (root : Hash) (d : Disk) : Error + StateDB :=
  inr {| originalRoot := root;
         witness := {| stateless.Headers := [];
                       stateless.Codes := ∅;
                       stateless.State := ∅ |} |}.

Definition convert (b : ethrpc.Block) : gethtypes.Block :=
  {| gethtypes.Header_ := ethrpc.Header_ b;
     gethtypes.Transactions := ethrpc.Transactions b;
     gethtypes.Uncles := ethrpc.Uncles b;
     gethtypes.Withdrawals := ethrpc.Withdrawals b |}.

(** The root an execution of the block arrives at. *)
Definition postRoot (p : evm.ExecParams) (d : Disk) (s : StateDB) : Hash :=
  originalRoot s.

Definition executor : Executor := λ c p d s,
  if evm.Validate p &&
     negb (bool_decide (postRoot p d s = gethtypes.Root (gethtypes.Header_ (evm.Block p))))
  then (inl "invalid merkle root", s)
  else (inr [],
        {| originalRoot := originalRoot s;
           witness := {| stateless.Headers := [];
                         stateless.Codes := list_to_set ((map_to_list (codeSpace d)).*2);
                         stateless.State := {[ originalRoot s ]} |} |}).

Definition chain (init_error : params.ChainConfig → option Error) : Collaborators :=
  {| chain_init_error := init_error;
     keccak256 := keccak;
     NodeSetFromStateTransitionProofs := nodeSet;
     TrieDB_Update := update;
     StateDB_New := open;
     Block_Block := convert;
     NewExecutor := executor;
     ExecutorWithLog := λ ex, ex;
     ExecutorWithTags := λ _ ex, ex |}.

(** The chain always wires. *)
Definition E : Collaborators := chain (λ _, None).

Definition config : params.ChainConfig :=
  {| params.ChainID := 1; params.Forks := [("london", 0)] |}.

Definition genesis : gethtypes.Header :=
  {| gethtypes.ParentHash := "00"; gethtypes.Root := "r0";
     gethtypes.Number := 0; gethtypes.Timestamp := 0 |}.
Definition parent : gethtypes.Header :=
  {| gethtypes.ParentHash := "h0"; gethtypes.Root := "r1";
     gethtypes.Number := 1; gethtypes.Timestamp := 12 |}.

(** An empty block on top of [parent]: the state root does not move. *)
Definition block : ethrpc.Block :=
  {| ethrpc.Header_ := {| gethtypes.ParentHash := "h1"; gethtypes.Root := "r1";
                          gethtypes.Number := 2; gethtypes.Timestamp := 24 |};
     ethrpc.Hash_ := "h2";
     ethrpc.Transactions := [];
     ethrpc.Uncles := [];
     ethrpc.Withdrawals := [] |}.

Definition proof : trie.AccountProof :=
  {| trie.Address := "a1"; trie.AccountProof_ := ["n1"; "n2"]; trie.Storage := [] |}.
Definition proof_without_nodes : trie.AccountProof :=
  {| trie.Address := "a1"; trie.AccountProof_ := []; trie.Storage := [] |}.

Definition preflight (cfg : params.ChainConfig)
    (ancestors : list gethtypes.Header) (pre : list trie.AccountProof)
    : PreflightData :=
  {| ChainConfig := cfg;
     Block := block;
     Ancestors := ancestors;
     PreStateProofs := pre;
     PostStateProofs := [proof];
     Codes := {[ "0x6001" := "6001"; "0x6002" := "6002" ]} |}.

(** The block with its parent and the genesis header. *)
Definition data : PreflightData := preflight config [parent; genesis] [proof].

(** The same, but the header of the block declares another state root. *)
Definition mismatched : PreflightData :=
  {| ChainConfig := config;
     Block := {| ethrpc.Header_ :=
                   {| gethtypes.ParentHash := "h1"; gethtypes.Root := "r9";
                      gethtypes.Number := 2; gethtypes.Timestamp := 24 |};
                 ethrpc.Hash_ := "h2";
                 ethrpc.Transactions := [];
                 ethrpc.Uncles := [];
                 ethrpc.Withdrawals := [] |};
     Ancestors := [parent; genesis];
     PreStateProofs := [proof];
     PostStateProofs := [proof];
     Codes := ∅ |}.

Definition cancelledCtx : context.Context :=
  context.WithCancel true context.Background.

(** The preparer context that context build makes for [config]. *)
Definition valCtx : preparerContext :=
  {| ctx := context.Background; trackers := NewAccessTrackerManager;
     stateDB := TheDatabase; hc := {| hc_config := config |} |}.

End Sample.

(** ** Notions used in the statements *)

(** The context handed to the stages: the caller's, tagged. *)
Definition tagged (c : context.Context) (data : PreflightData) : context.Context :=
  tag.WithTags (tag.WithComponent c "prepare")
    [ ("chain.id", context.TagString (pretty (params.ChainID (ChainConfig data))));
      ("block.number", context.TagInt64 (Int64 (ethrpc.Number (Block data))));
      ("block.hash", context.TagString (ethrpc.Hash_ (Block data))) ].

(** Which stage failed, and with what error. *)
Inductive stage_failure (E : Collaborators) (ro : list string → list string)
    (c : context.Context) (w : World) : Error → Prop :=
| context_failed x err w1 :
    prepareContext E c w = Done (x, Some err) w1 →
    stage_failure E ro c w ("failed to prepare validation context: " +:+ err)
| prestate_failed valCtx err w1 w2 :
    prepareContext E c w = Done (valCtx, None) w1 →
    preparePreState E ro valCtx w1 = Done (Some err) w2 →
    stage_failure E ro c w ("failed to prefill validation database: " +:+ err)
| exec_params_failed valCtx x err w1 w2 w3 :
    prepareContext E c w = Done (valCtx, None) w1 →
    preparePreState E ro valCtx w1 = Done None w2 →
    prepareExecParams E valCtx w2 = Done (x, Some err) w3 →
    stage_failure E ro c w ("failed to prepare validation exec params: " +:+ err)
| execution_failed valCtx execParams err w1 w2 w3 w4 :
    prepareContext E c w = Done (valCtx, None) w1 →
    preparePreState E ro valCtx w1 = Done None w2 →
    prepareExecParams E valCtx w2 = Done (execParams, None) w3 →
    execute E valCtx execParams w3 = Done (Some err) w4 →
    stage_failure E ro c w ("validation execution failed: " +:+ err).

Definition keeps_inputs {A} (m : M A) : Prop :=
  ∀ w, w_preflight (world_of (m w)) = w_preflight w.

Definition log_call (c : Call) (w : World) : World :=
  {| w_preflight := w_preflight w; w_disk := w_disk w;
     w_state := w_state w; w_calls := w_calls w ++ [c] |}.

Definition with_disk (d : Disk) (w : World) : World :=
  {| w_preflight := w_preflight w; w_disk := d;
     w_state := w_state w; w_calls := w_calls w |}.

Definition with_state (s : StateDB) (w : World) : World :=
  {| w_preflight := w_preflight w; w_disk := w_disk w;
     w_state := Some s; w_calls := w_calls w |}.

Definition with_trieSpace (sp : gmap Hash Bytes) (d : Disk) : Disk :=
  {| headerSpace := headerSpace d; codeSpace := codeSpace d; trieSpace := sp |}.

(** What [Prepare] may hand back: an input and no error, or an error and no
    input. *)
Definition returns_input_xor_error
    (r : option input.ProverInput * option Error) : Prop :=
  (∃ proverInput, r = (Some proverInput, None)) ∨ (∃ err, r = (None, Some err)).

(** The conversion [ethrpc.Block.Block] (go-utils, outside the repository)
    is taken to carry the header and the body over as they are. *)
Definition keeps_block_parts (conv : ethrpc.Block → gethtypes.Block) : Prop :=
  ∀ b, gethtypes.Header_ (conv b) = ethrpc.Header_ b ∧
       gethtypes.Transactions (conv b) = ethrpc.Transactions b ∧
       gethtypes.Uncles (conv b) = ethrpc.Uncles b ∧
       gethtypes.Withdrawals (conv b) = ethrpc.Withdrawals b.

(** The runtime may visit a map in any order, each entry once. *)
Definition RangeOrder (ro : list string → list string) : Prop :=
  ∀ l, ro l ≡ₚ l.

(** No two of the bytecodes share a code hash. *)
Definition collision_free (keccak : Bytes → Hash) (codes : list Bytes) : Prop :=
  Forall (λ c1, Forall (λ c2, keccak c1 = keccak c2 → c1 = c2) codes) codes.

Definition code_list (data : PreflightData) : list Bytes :=
  (map_to_list (Codes data)).*2.

(** Two worlds that hold the same objects, whatever calls were logged; [Q]
    is what is known of the input record. *)
Definition same_objects (Q : PreflightData → Prop) (w1 w2 : World) : Prop :=
  w_preflight w1 = w_preflight w2 ∧ w_disk w1 = w_disk w2 ∧
  w_state w1 = w_state w2 ∧ Q (w_preflight w1).

(** Two runs that end alike: both return, with results related by [V], or
    both stop on the same fault. *)
Definition agree {A} (Q : PreflightData → Prop) (V : A → A → Prop)
    (r1 r2 : res A) : Prop :=
  match r1, r2 with
  | Done a1 w1, Done a2 w2 => V a1 a2 ∧ same_objects Q w1 w2
  | Fault f1 w1, Fault f2 w2 => f1 = f2 ∧ same_objects Q w1 w2
  | _, _ => False
  end.

Definition related {A} (Q : PreflightData → Prop) (V : A → A → Prop)
    (m1 m2 : M A) : Prop :=
  ∀ w1 w2, same_objects Q w1 w2 → agree Q V (m1 w1) (m2 w2).

(** Preparer contexts over the same chain, one carrying the Go context
    [c1] and the other [c2]. *)
Definition ctx_alike (c1 c2 : context.Context)
    (v1 v2 : option preparerContext) : Prop :=
  match v1, v2 with
  | Some a, Some b => hc a = hc b ∧ ctx a = c1 ∧ ctx b = c2
  | None, None => True
  | _, _ => False
  end.

(** Prover inputs equal up to [L] on the two witness lists that come from
    a map. *)
Definition inputs_alike (L : list Bytes → list Bytes → Prop)
    (p1 p2 : option input.ProverInput) : Prop :=
  match p1, p2 with
  | Some a, Some b =>
      input.ChainConfig a = input.ChainConfig b ∧
      input.Blocks a = input.Blocks b ∧
      input.Ancestors (input.Witness_ a) = input.Ancestors (input.Witness_ b) ∧
      L (input.Codes (input.Witness_ a)) (input.Codes (input.Witness_ b)) ∧
      L (input.State (input.Witness_ a)) (input.State (input.Witness_ b))
  | None, None => True
  | _, _ => False
  end.

Definition results_alike (L : list Bytes → list Bytes → Prop)
    (r1 r2 : option input.ProverInput * option Error) : Prop :=
  inputs_alike L r1.1 r2.1 ∧ r1.2 = r2.2.

(** The executor the preparer runs: the base executor under its two
    decorators. *)
Definition decorated (E : Collaborators) : Executor :=
  ExecutorWithTags E "evm" (ExecutorWithLog E (NewExecutor E)).

(** Modelled from the spec: the executor ([evm.Executor], src/ethereum/evm,
    absent) run with [Validate = true] fails when the post-state root it
    recomputes ([post]) is not the root in the block header. *)
Definition ExecutorValidates
    (post : evm.ExecParams → Disk → StateDB → Hash) (ex : Executor) : Prop :=
  ∀ c p d s,
    evm.Validate p = true →
    post p d s ≠ gethtypes.Root (gethtypes.Header_ (evm.Block p)) →
    ∃ err s', ex c p d s = (inl err, s').

(** An executor whose outcome does not depend on the cancellation signal of
    the context it is given. *)
Definition token_blind (ex : Executor) : Prop :=
  ∀ b1 b2 c p d s,
    ex (context.WithCancel b1 c) p d s = ex (context.WithCancel b2 c) p d s.

(** Two lists with the same elements, up to the order. *)
Definition same_elements {A} (l1 l2 : list A) : Prop :=
  l1 ≡ₚ l2 ∧ ∀ x, x ∈ l1 ↔ x ∈ l2.


(** The calls of a run that goes through all four stages. *)
Definition pipeline_calls (c : context.Context) (inputs : PreflightData)
    (parentHeader genesisHeader : gethtypes.Header) (nodeSet : trie.NodeSet)
    (codes : list Bytes) (p : evm.ExecParams) : list Call :=
  [ CallNewChain (ChainConfig inputs);
    CallWriteHeaders (Ancestors inputs);
    CallGetHeaderByNumber 0;
    CallNodeSetFromStateTransitionProofs (gethtypes.Root parentHeader)
      (ethrpc.Root (Block inputs)) (PreStateProofs inputs) (PostStateProofs inputs);
    CallUpdate (gethtypes.Root parentHeader) (gethtypes.Root genesisHeader) 0 nodeSet;
    CallWriteCodes codes;
    CallStateNew (gethtypes.Root parentHeader);
    CallExecute c p ].

(** Two runs with the same outcome over the same store. *)
Definition same_outcome {A} (r1 r2 : res A) : Prop :=
  match r1, r2 with
  | Done a1 w1, Done a2 w2 => a1 = a2 ∧ w_disk w1 = w_disk w2
  | Fault f1 w1, Fault f2 w2 => f1 = f2 ∧ w_disk w1 = w_disk w2
  | _, _ => False
  end.

(** The parameters [prepareExecParams] builds, and the prover input
    [prepareProverInput] assembles from them and from the state object. *)
Definition exec_params (E : Collaborators) (inputs : PreflightData) : evm.ExecParams :=
  {| evm.VMConfig := {| vm.NoBaseFee := false;
                        vm.EnablePreimageRecording := false;
                        vm.StatelessSelfValidation := true |};
     evm.Block := Block_Block E (Block inputs);
     evm.Validate := true;
     evm.Chain := {| hc_config := ChainConfig inputs |};
     evm.State := TheState |}.

Definition assembled (ro : list string → list string) (p : evm.ExecParams)
    (st : StateDB) : input.ProverInput :=
  {| input.ChainConfig := hc_config (evm.Chain p);
     input.Blocks :=
       [ {| input.Header := gethtypes.Header_ (evm.Block p);
            input.Transactions := gethtypes.Transactions (evm.Block p);
            input.Uncles := gethtypes.Uncles (evm.Block p);
            input.Withdrawals := gethtypes.Withdrawals (evm.Block p) |} ];
     input.Witness_ :=
       {| input.Ancestors := stateless.Headers (witness st);
          input.Codes := ro (elements (stateless.Codes (witness st)));
          input.State := ro (elements (stateless.State (witness st))) |} |}.

(** The preparer context that context build returns. *)
Definition built_context (c : context.Context) (inputs : PreflightData)
    : preparerContext :=
  {| ctx := c; trackers := NewAccessTrackerManager; stateDB := TheDatabase;
     hc := {| hc_config := ChainConfig inputs |} |}.

(** The store after a hydration that succeeds: the ancestors, the committed
    nodes and the bytecodes, on an empty store. *)
Definition hydrated_disk (E : Collaborators) (ro : list string → list string)
    (inputs : PreflightData) (sp : gmap Hash Bytes) : Disk :=
  WriteCodes (keccak256 E)
    (with_trieSpace sp (WriteHeaders NewMemoryDatabase (Ancestors inputs)))
    (ro (code_list inputs)).

(** Modelled from the spec: context build ([ethereum.NewChain], src/ethereum,
    absent) wires the store, the trie database and the chain for the chain
    configuration of the input and does not fail (§7, context-init). *)
Definition context_builds (E : Collaborators) (inputs : PreflightData) : Prop :=
  chain_init_error E (ChainConfig inputs) = None.

(** ** Reasoning about runs *)

Lemma foldl_snoc {A} (l acc : list A) :
  foldl (λ acc x, acc ++ [x]) acc l = acc ++ l.
Proof.
  revert acc. induction l as [|x l IH]; intros acc; simpl.
  - by rewrite app_nil_r.
  - rewrite IH. by rewrite <- app_assoc.
Qed.

Lemma foldl_snoc_nil {A} (l : list A) :
  foldl (λ acc x, acc ++ [x]) [] l = l.
Proof. by rewrite foldl_snoc. Qed.

(** Unfold a run down to the collaborators' answers. *)
Ltac unfold_run :=
  unfold Prepare, prepare, prepareContext, preparePreState, prepareExecParams,
    execute, prepareProverInput, Execute, ethereum_NewChain,
    ethereum_WriteHeaders, ethereum_WriteCodes, hc_GetHeaderByNumber,
    trie_NodeSetFromStateTransitionProofs, triedb_Update, gethstate_New,
    index, deref, load_inputs, load_disk, load_state, store_disk, store_state,
    record_call, panic, bind, ret, NewChain in *;
  simpl in *.

Ltac split_run := repeat (case_match; simpl in *; simplify_eq).

Lemma Prepare_prepare E ro c w :
  Prepare E ro c w =
  match prepare E ro (tagged c (w_preflight w)) w with
  | Done (_, Some err) w' => Done (None, Some err) w'
  | Done (inputs, None) w' => Done (inputs, None) w'
  | Fault f w' => Fault f w'
  end.
Proof.
  unfold Prepare, tagged, bind, load_inputs, ret.
  destruct (prepare _ _ _ w) as [[? [?|]] ?|]; reflexivity.
Qed.

(** The shape of what [prepare] returns, stage by stage. *)
Lemma prepare_cases E ro c w r w' :
  prepare E ro c w = Done r w' →
  (∃ err, r = (None, Some err) ∧ stage_failure E ro c w err) ∨
  (∃ valCtx execParams w1 w2 w3 w4,
      prepareContext E c w = Done (valCtx, None) w1 ∧
      preparePreState E ro valCtx w1 = Done None w2 ∧
      prepareExecParams E valCtx w2 = Done (execParams, None) w3 ∧
      execute E valCtx execParams w3 = Done None w4 ∧
      ∃ proverInput,
        prepareProverInput ro valCtx execParams w4 = Done proverInput w' ∧
        r = (proverInput, None)).
Proof.
  unfold prepare, bind at 1.
  destruct (prepareContext E c w) as [[valCtx [err|]] w1|] eqn:H1;
    [unfold ret; intros [= ? ?]; subst; left; eexists; split; [done|econstructor; eassumption]| |done].
  unfold bind at 1.
  destruct (preparePreState E ro valCtx w1) as [[err|] w2|] eqn:H2;
    [unfold ret; intros [= ? ?]; subst; left; eexists; split; [done|econstructor 2; eassumption]| |done].
  unfold bind at 1.
  destruct (prepareExecParams E valCtx w2) as [[execParams [err|]] w3|] eqn:H3;
    [unfold ret; intros [= ? ?]; subst; left; eexists; split; [done|econstructor 3; eassumption]| |done].
  unfold bind at 1.
  destruct (execute E valCtx execParams w3) as [[err|] w4|] eqn:H4;
    [unfold ret; intros [= ? ?]; subst; left; eexists; split; [done|econstructor 4; eassumption]| |done].
  unfold bind at 1.
  destruct (prepareProverInput ro valCtx execParams w4) as [pi w5|] eqn:H5; [|done].
  unfold ret. intros [= ? ?]; subst. right.
  exists valCtx, execParams, w1, w2, w3, w4. split_and!; try done.
  by exists pi.
Qed.

(** *** The input record is only read *)

Lemma keeps_ret {A} (a : A) : keeps_inputs (ret a).
Proof. done. Qed.

Lemma keeps_panic {A} f : keeps_inputs (@panic A f).
Proof. done. Qed.

Lemma keeps_bind {A B} (m : M A) (k : A → M B) :
  keeps_inputs m → (∀ a, keeps_inputs (k a)) → keeps_inputs (bind m k).
Proof.
  intros Hm Hk w. unfold bind. specialize (Hm w).
  destruct (m w) as [a w1|f w1]; simpl in *; [|done].
  by rewrite Hk.
Qed.

Lemma keeps_deref {A} (p : option A) : keeps_inputs (deref p).
Proof. by destruct p. Qed.

Lemma keeps_index {A} (s : list A) i : keeps_inputs (index s i).
Proof. unfold index. by destruct (s !! i). Qed.

Lemma keeps_load_inputs : keeps_inputs load_inputs.
Proof. done. Qed.

Lemma keeps_load_disk : keeps_inputs load_disk.
Proof. done. Qed.

Lemma keeps_load_state r : keeps_inputs (load_state r).
Proof. intros w. unfold load_state. by destruct (w_state w). Qed.

Lemma keeps_store_disk d : keeps_inputs (store_disk d).
Proof. done. Qed.

Lemma keeps_store_state s : keeps_inputs (store_state s).
Proof. done. Qed.

Lemma keeps_record_call c : keeps_inputs (record_call c).
Proof. done. Qed.

Create HintDb frame discriminated.
#[global] Hint Resolve keeps_ret keeps_panic keeps_deref keeps_index
  keeps_load_inputs keeps_load_disk keeps_load_state keeps_store_disk
  keeps_store_state keeps_record_call : frame.

(** Walk down a stage, one bind or one case at a time. *)
Ltac frame_step :=
  match goal with
  | |- keeps_inputs (bind _ _) => apply keeps_bind; [|intros ?]
  | |- keeps_inputs (match ?x with _ => _ end) => destruct x
  | |- keeps_inputs (let (_, _) := ?x in _) => destruct x
  | |- keeps_inputs _ => solve [auto with frame]
  end.
Ltac frame := repeat frame_step.

Section Frame.
Context (E : Collaborators) (ro : list string → list string).

Lemma keeps_ethereum_NewChain cfg r : keeps_inputs (ethereum_NewChain E cfg r).
Proof. unfold ethereum_NewChain. frame. Qed.

Lemma keeps_ethereum_WriteHeaders r hs : keeps_inputs (ethereum_WriteHeaders r hs).
Proof. unfold ethereum_WriteHeaders. frame. Qed.

Lemma keeps_ethereum_WriteCodes r codes :
  keeps_inputs (ethereum_WriteCodes E r codes).
Proof. unfold ethereum_WriteCodes. frame. Qed.

Lemma keeps_hc_GetHeaderByNumber hc n : keeps_inputs (hc_GetHeaderByNumber hc n).
Proof. unfold hc_GetHeaderByNumber. frame. Qed.

Lemma keeps_trie_NodeSet a b pre post :
  keeps_inputs (trie_NodeSetFromStateTransitionProofs E a b pre post).
Proof. unfold trie_NodeSetFromStateTransitionProofs. frame. Qed.

Lemma keeps_triedb_Update r a b n ns : keeps_inputs (triedb_Update E r a b n ns).
Proof. unfold triedb_Update. frame. Qed.

Lemma keeps_gethstate_New root r : keeps_inputs (gethstate_New E root r).
Proof. unfold gethstate_New. frame. Qed.

Lemma keeps_Execute ex c p : keeps_inputs (Execute ex c p).
Proof. unfold Execute. frame. Qed.

Hint Resolve keeps_ethereum_NewChain keeps_ethereum_WriteHeaders
  keeps_ethereum_WriteCodes keeps_hc_GetHeaderByNumber keeps_trie_NodeSet
  keeps_triedb_Update keeps_gethstate_New keeps_Execute : frame.

Lemma keeps_prepareContext c : keeps_inputs (prepareContext E c).
Proof. unfold prepareContext. frame. Qed.

Lemma keeps_preparePreState valCtx : keeps_inputs (preparePreState E ro valCtx).
Proof. unfold preparePreState. frame. Qed.

Lemma keeps_prepareExecParams valCtx : keeps_inputs (prepareExecParams E valCtx).
Proof. unfold prepareExecParams. frame. Qed.

Lemma keeps_execute valCtx execParams : keeps_inputs (execute E valCtx execParams).
Proof. unfold execute. frame. Qed.

Lemma keeps_prepareProverInput valCtx execParams :
  keeps_inputs (prepareProverInput ro valCtx execParams).
Proof. unfold prepareProverInput. frame. Qed.

Hint Resolve keeps_prepareContext keeps_preparePreState
  keeps_prepareExecParams keeps_execute keeps_prepareProverInput : frame.

Lemma keeps_prepare c : keeps_inputs (prepare E ro c).
Proof. unfold prepare. frame. Qed.

Lemma keeps_Prepare c : keeps_inputs (Prepare E ro c).
Proof.
  unfold Prepare. apply keeps_bind; [auto with frame|intros data].
  apply keeps_bind; [apply keeps_prepare|intros [inputs [err|]]]; auto with frame.
Qed.

Lemma keeps_done {A} (m : M A) w a w' :
  keeps_inputs m → m w = Done a w' → w_preflight w' = w_preflight w.
Proof. intros Hm Hrun. specialize (Hm w). by rewrite Hrun in Hm. Qed.
End Frame.

(** *** The stages, one by one *)

Section Stages.
Context (E : Collaborators) (ro : list string → list string).

(** Context build starts from an empty store and cannot fault. *)
Lemma prepareContext_run c w :
  let cfg := ChainConfig (w_preflight w) in
  let w1 := log_call (CallNewChain cfg) (with_disk NewMemoryDatabase w) in
  prepareContext E c w =
  match chain_init_error E cfg with
  | Some err => Done (None, Some ("failed to create chain: " +:+ err)) w1
  | None =>
      Done (Some {| ctx := c; trackers := NewAccessTrackerManager;
                    stateDB := TheDatabase; hc := {| hc_config := cfg |} |},
            None) w1
  end.
Proof. unfold_run. destruct (chain_init_error E _); reflexivity. Qed.

(** The parameters built for the executor. *)
Lemma prepareExecParams_ok valCtx w p w' :
  prepareExecParams E valCtx w = Done (Some p, None) w' →
  ∃ c parentHeader s,
    valCtx = Some c ∧
    Ancestors (w_preflight w) !! 0%nat = Some parentHeader ∧
    StateDB_New E (gethtypes.Root parentHeader) (w_disk w) = inr s ∧
    w' = with_state s (log_call (CallStateNew (gethtypes.Root parentHeader)) w) ∧
    p = {| evm.VMConfig := {| vm.NoBaseFee := false;
                              vm.EnablePreimageRecording := false;
                              vm.StatelessSelfValidation := true |};
           evm.Block := Block_Block E (Block (w_preflight w));
           evm.Validate := true;
           evm.Chain := hc c;
           evm.State := TheState |}.
Proof.
  intros Hrun. unfold_run. split_run.
  repeat match goal with x : StateRef |- _ => destruct x end.
  eexists _, _, _. split_and!; [done|eassumption|eassumption|done|done].
Qed.

Lemma prepareExecParams_shape valCtx w r w' :
  prepareExecParams E valCtx w = Done r w' →
  (∃ p, r = (Some p, None)) ∨ (∃ err, r = (None, Some err)).
Proof. intros Hrun. unfold_run. split_run; eauto. Qed.

(** The executor is called once, on the parameters given, and leaves the
    store as it is. *)
Lemma execute_run c p w :
  execute E (Some c) (Some p) w =
  match w_state w with
  | None => Fault NilPointerDereference (log_call (CallExecute (ctx c) p) w)
  | Some s =>
      let '(r, s') := ExecutorWithTags E "evm" (ExecutorWithLog E (NewExecutor E))
                        (ctx c) p (w_disk w) s in
      let w' := with_state s' (log_call (CallExecute (ctx c) p) w) in
      match r with
      | inl err => Done (Some ("failed to execute block: " +:+ err)) w'
      | inr _ => Done None w'
      end
  end.
Proof.
  unfold_run. unfold log_call, with_state. destruct (w_state w); [|done].
  destruct (ExecutorWithTags E _ _ _ _ _ _) as [[err|receipts] s']; done.
Qed.

(** Assembly: the block parts come from the parameters, the witness from
    the state object, its sets listed in the order of the runtime. *)
Lemma prepareProverInput_run valCtx p w :
  prepareProverInput ro valCtx (Some p) w =
  match w_state w with
  | None => Fault NilPointerDereference w
  | Some st =>
      Done (Some
        {| input.ChainConfig := hc_config (evm.Chain p);
           input.Blocks :=
             [ {| input.Header := gethtypes.Header_ (evm.Block p);
                  input.Transactions := gethtypes.Transactions (evm.Block p);
                  input.Uncles := gethtypes.Uncles (evm.Block p);
                  input.Withdrawals := gethtypes.Withdrawals (evm.Block p) |} ];
           input.Witness_ :=
             {| input.Ancestors := stateless.Headers (witness st);
                input.Codes := ro (elements (stateless.Codes (witness st)));
                input.State := ro (elements (stateless.State (witness st))) |} |}) w
  end.
Proof.
  unfold_run. destruct (w_state w); [|done].
  unfold range_keys. by rewrite !foldl_snoc_nil.
Qed.

Lemma prepareProverInput_some valCtx execParams w r w' :
  prepareProverInput ro valCtx execParams w = Done r w' →
  ∃ proverInput, r = Some proverInput.
Proof. intros Hrun. unfold_run. split_run; eauto. Qed.
End Stages.

Section Hydration.
Context (E : Collaborators) (ro : list string → list string).

(** Pre-state hydration, call by call. *)
Lemma preparePreState_run c w :
  let inputs := w_preflight w in
  let w1 := with_disk (WriteHeaders (w_disk w) (Ancestors inputs))
              (log_call (CallWriteHeaders (Ancestors inputs)) w) in
  preparePreState E ro (Some c) w =
  match Ancestors inputs !! 0%nat with
  | None => Fault IndexOutOfRange w1
  | Some parentHeader =>
      let parentRoot := gethtypes.Root parentHeader in
      let postRoot := ethrpc.Root (Block inputs) in
      let w2 := log_call (CallNodeSetFromStateTransitionProofs parentRoot postRoot
                            (PreStateProofs inputs) (PostStateProofs inputs))
                  (log_call (CallGetHeaderByNumber 0) w1) in
      match NodeSetFromStateTransitionProofs E parentRoot postRoot
              (PreStateProofs inputs) (PostStateProofs inputs) with
      | inl err => Done (Some ("failed to create state nodes: " +:+ err)) w2
      | inr nodeSet =>
          match GetHeaderByNumber (w_disk w1) 0 with
          | None => Fault NilPointerDereference w2
          | Some genesisHeader =>
              let genesisRoot := gethtypes.Root genesisHeader in
              let w3 := log_call (CallUpdate parentRoot genesisRoot 0 nodeSet) w2 in
              match TrieDB_Update E (trieSpace (w_disk w1))
                      parentRoot genesisRoot 0 nodeSet with
              | inl err =>
                  Done (Some ("failed to update trie db with state nodes: "
                              +:+ err)) w3
              | inr sp =>
                  let codes := ro ((map_to_list (Codes inputs)).*2) in
                  Done None
                    (with_disk
                       (WriteCodes (keccak256 E)
                          (with_trieSpace sp (w_disk w1)) codes)
                       (log_call (CallWriteCodes codes) w3))
              end
          end
      end
  end.
Proof.
  unfold_run. unfold range_values, log_call, with_disk, with_trieSpace.
  rewrite foldl_snoc_nil. simpl.
  destruct (Ancestors (w_preflight w) !! 0%nat) as [parentHeader|]; [|done].
  destruct (NodeSetFromStateTransitionProofs E _ _ _ _) as [err|nodeSet]; [done|].
  destruct (GetHeaderByNumber _ 0) as [genesisHeader|]; [|done].
  simpl. destruct (TrieDB_Update E _ _ _ _ _) as [err|sp]; done.
Qed.

(** The header space after the ancestors are written. *)
Lemma WriteHeaders_headerSpace d headers :
  headerSpace (WriteHeaders d headers) = headerSpace d ++ headers.
Proof. simpl. apply foldl_snoc. Qed.

Lemma GetHeaderByNumber_Some d n h :
  GetHeaderByNumber d n = Some h → h ∈ headerSpace d ∧ gethtypes.Number h = n.
Proof.
  unfold GetHeaderByNumber. intros Hfind.
  apply find_some in Hfind as [Hin Hn].
  apply list_elem_of_In in Hin. by apply bool_decide_eq_true in Hn.
Qed.

Lemma GetHeaderByNumber_None d n :
  GetHeaderByNumber d n = None ↔ ∀ h, h ∈ headerSpace d → gethtypes.Number h ≠ n.
Proof.
  unfold GetHeaderByNumber. split.
  - intros Hfind h Hin Hn.
    apply list_elem_of_In in Hin.
    pose proof (find_none _ _ Hfind h Hin) as Hb.
    apply bool_decide_eq_false in Hb. done.
  - intros Hall. destruct (find _ _) as [h|] eqn:Hfind; [|done].
    apply find_some in Hfind as [Hin Hn].
    apply list_elem_of_In in Hin. apply bool_decide_eq_true in Hn.
    by destruct (Hall h Hin).
Qed.

Lemma GetHeaderByNumber_is_Some d n h :
  h ∈ headerSpace d → gethtypes.Number h = n → is_Some (GetHeaderByNumber d n).
Proof.
  intros Hin Hn. destruct (GetHeaderByNumber d n) eqn:Hget; [by eexists|].
  by destruct (proj1 (GetHeaderByNumber_None d n) Hget h Hin).
Qed.
End Hydration.

(** ** The pipeline as a whole *)

Section Pipeline.
Context (E : Collaborators) (ro : list string → list string).

(** A successful run, traced through its stages. *)
Lemma prepare_success c w proverInput w' :
  prepare E ro c w = Done (proverInput, None) w' →
  ∃ valCtx p w1 w2 w3 w4,
    prepareContext E c w = Done (valCtx, None) w1 ∧
    preparePreState E ro valCtx w1 = Done None w2 ∧
    prepareExecParams E valCtx w2 = Done (Some p, None) w3 ∧
    execute E valCtx (Some p) w3 = Done None w4 ∧
    prepareProverInput ro valCtx (Some p) w4 = Done proverInput w'.
Proof.
  intros Hrun. apply prepare_cases in Hrun as [(err & [=] & _)|Hrun].
  destruct Hrun as (valCtx & execParams & w1 & w2 & w3 & w4
                    & H1 & H2 & H3 & H4 & pi & H5 & [= ->]).
  destruct (prepareExecParams_shape _ _ _ _ _ H3) as [[p [= ->]]|[err [=]]].
  by exists valCtx, p, w1, w2, w3, w4.
Qed.

Lemma prepare_shape c w r w' :
  prepare E ro c w = Done r w' → returns_input_xor_error r.
Proof.
  intros Hrun. apply prepare_cases in Hrun as [(err & -> & _)|Hrun].
  - right. by exists err.
  - destruct Hrun as (valCtx & execParams & w1 & w2 & w3 & w4
                      & _ & _ & _ & _ & pi & H5 & ->).
    apply prepareProverInput_some in H5 as [proverInput ->].
    left. by exists proverInput.
Qed.

Lemma Prepare_Done c w r w' :
  Prepare E ro c w = Done r w' →
  prepare E ro (tagged c (w_preflight w)) w = Done r w'.
Proof.
  rewrite Prepare_prepare. intros Hrun.
  destruct (prepare E ro _ w) as [r0 w0|] eqn:Hp; [|done].
  pose proof (prepare_shape _ _ _ _ Hp) as [[pi ->]|[err ->]]; by simplify_eq.
Qed.
End Pipeline.

(** *** Runs that differ in the runtime's choices or in the Go context *)

Section Related.
Context (Q : PreflightData → Prop).

Lemma same_objects_log c1 c2 w1 w2 :
  same_objects Q w1 w2 → same_objects Q (log_call c1 w1) (log_call c2 w2).
Proof. by intros (?&?&?&?). Qed.

Lemma related_ret {A} (V : A → A → Prop) a1 a2 :
  V a1 a2 → related Q V (ret a1) (ret a2).
Proof. by intros HV w1 w2 Hw. Qed.

Lemma related_panic {A} (V : A → A → Prop) f :
  related Q V (panic f) (panic f).
Proof. by intros w1 w2 Hw. Qed.

Lemma related_bind {A B} (V : A → A → Prop) (V' : B → B → Prop)
    (m1 m2 : M A) (k1 k2 : A → M B) :
  related Q V m1 m2 →
  (∀ a1 a2, V a1 a2 → related Q V' (k1 a1) (k2 a2)) →
  related Q V' (bind m1 k1) (bind m2 k2).
Proof.
  intros Hm Hk w1 w2 Hw. unfold bind. specialize (Hm w1 w2 Hw).
  destruct (m1 w1) as [a1 w1'|f1 w1'], (m2 w2) as [a2 w2'|f2 w2']; try done.
  destruct Hm as [HV Hw']. by apply Hk.
Qed.

Lemma related_deref {A} (p : option A) : related Q eq (deref p) (deref p).
Proof. destruct p; [by apply related_ret|apply related_panic]. Qed.

Lemma related_index {A} (s : list A) i : related Q eq (index s i) (index s i).
Proof. unfold index. destruct (s !! i); [by apply related_ret|apply related_panic]. Qed.

Lemma related_load_inputs :
  related Q (λ d1 d2, d1 = d2 ∧ Q d1) load_inputs load_inputs.
Proof. intros w1 w2 (Hp&Hd&Hs&HQ). by repeat split. Qed.

Lemma related_load_disk : related Q eq load_disk load_disk.
Proof. intros w1 w2 (Hp&Hd&Hs&HQ). by repeat split. Qed.

Lemma related_load_state r : related Q eq (load_state r) (load_state r).
Proof.
  intros w1 w2 (Hp&Hd&Hs&HQ). unfold load_state. rewrite <- Hs.
  destruct (w_state w1) eqn:Hs1; simpl; repeat split; congruence.
Qed.

Lemma related_store_disk d : related Q eq (store_disk d) (store_disk d).
Proof. intros w1 w2 (Hp&Hd&Hs&HQ). by repeat split. Qed.

Lemma related_store_state s : related Q eq (store_state s) (store_state s).
Proof. intros w1 w2 (Hp&Hd&Hs&HQ). by repeat split. Qed.

Lemma related_record_call c1 c2 :
  related Q eq (record_call c1) (record_call c2).
Proof. intros w1 w2 (Hp&Hd&Hs&HQ). by repeat split. Qed.

End Related.

Create HintDb rel discriminated.
#[global] Hint Resolve related_deref related_index related_load_inputs
  related_load_disk related_load_state related_store_disk related_store_state
  related_record_call related_panic : rel.

(** One step of two runs side by side: the first operation of each, then the
    continuations on related results. *)
Ltac rel_step :=
  match goal with
  | |- related _ _ (bind _ _) (bind _ _) =>
      eapply related_bind; [solve [eauto with rel]|];
      let a1 := fresh "a" in let a2 := fresh "a" in let Ha := fresh "Ha" in
      intros a1 a2 Ha; cbv beta in Ha;
      lazymatch type of Ha with
      | _ ∧ _ => destruct Ha as [Ha ?]
      | _ => idtac
      end;
      try subst a2
  | |- related _ _ (ret _) (ret _) => apply related_ret; try done
  | |- related _ _ (match ?x with _ => _ end) (match ?x with _ => _ end) =>
      destruct x
  | |- related _ _ _ _ => solve [eauto with rel]
  end.
Ltac rel := repeat rel_step.

Section RelatedCalls.
Context (E : Collaborators) (Q : PreflightData → Prop).

Lemma related_ethereum_NewChain cfg r :
  related Q eq (ethereum_NewChain E cfg r) (ethereum_NewChain E cfg r).
Proof. unfold ethereum_NewChain. rel. Qed.

Lemma related_ethereum_WriteHeaders r1 r2 hs :
  related Q eq (ethereum_WriteHeaders r1 hs) (ethereum_WriteHeaders r2 hs).
Proof. unfold ethereum_WriteHeaders. rel. Qed.

Lemma related_hc_GetHeaderByNumber hc1 hc2 n :
  related Q eq (hc_GetHeaderByNumber hc1 n) (hc_GetHeaderByNumber hc2 n).
Proof. unfold hc_GetHeaderByNumber. rel. Qed.

Lemma related_trie_NodeSet a b pre post :
  related Q eq (trie_NodeSetFromStateTransitionProofs E a b pre post)
               (trie_NodeSetFromStateTransitionProofs E a b pre post).
Proof. unfold trie_NodeSetFromStateTransitionProofs. rel. Qed.

Lemma related_triedb_Update r1 r2 a b n ns :
  related Q eq (triedb_Update E r1 a b n ns) (triedb_Update E r2 a b n ns).
Proof. unfold triedb_Update. rel. Qed.

Lemma related_gethstate_New root r1 r2 :
  related Q eq (gethstate_New E root r1) (gethstate_New E root r2).
Proof. unfold gethstate_New. rel. Qed.

Lemma related_ethereum_WriteCodes r1 r2 codes1 codes2 :
  (∀ d, WriteCodes (keccak256 E) d codes1 = WriteCodes (keccak256 E) d codes2) →
  related Q eq (ethereum_WriteCodes E r1 codes1) (ethereum_WriteCodes E r2 codes2).
Proof.
  intros Hcodes. unfold ethereum_WriteCodes. rel. rewrite Hcodes. rel.
Qed.

Lemma related_Execute ex c1 c2 p :
  (∀ p d s, ex c1 p d s = ex c2 p d s) →
  related Q eq (Execute ex c1 p) (Execute ex c2 p).
Proof.
  intros Hex. unfold Execute. rel. rewrite Hex.
  destruct (ex c2 _ _ _) as [r s']. rel.
Qed.
End RelatedCalls.

#[global] Hint Resolve related_ethereum_NewChain related_ethereum_WriteHeaders
  related_hc_GetHeaderByNumber related_trie_NodeSet related_triedb_Update
  related_gethstate_New : rel.

Lemma related_bind_ret {A B} Q (V : B → B → Prop) (a1 a2 : A) (k1 k2 : A → M B) :
  related Q V (k1 a1) (k2 a2) →
  related Q V (bind (ret a1) k1) (bind (ret a2) k2).
Proof. intros Hk w1 w2 Hw. by apply Hk. Qed.

Section RelatedStages.
Context (E : Collaborators) (Q : PreflightData → Prop).
Context (ro1 ro2 : list string → list string).
Context (L : list Bytes → list Bytes → Prop).
Context (c1 c2 : context.Context).
Hypothesis codes_agree : ∀ data d, Q data →
  WriteCodes (keccak256 E) d (ro1 (code_list data)) =
  WriteCodes (keccak256 E) d (ro2 (code_list data)).
Hypothesis keys_agree : ∀ l, L (ro1 l) (ro2 l).
Hypothesis executor_agrees : ∀ p d s, decorated E c1 p d s = decorated E c2 p d s.

Lemma related_prepareContext :
  related Q (λ r1 r2, ctx_alike c1 c2 r1.1 r2.1 ∧ r1.2 = r2.2)
    (prepareContext E c1) (prepareContext E c2).
Proof. unfold prepareContext. rel. Qed.

Lemma related_preparePreState v1 v2 :
  ctx_alike c1 c2 v1 v2 →
  related Q eq (preparePreState E ro1 v1) (preparePreState E ro2 v2).
Proof.
  intros Hv. unfold preparePreState.
  destruct v1 as [a|], v2 as [b|]; try done.
  destruct Hv as (Hhc & _ & _). apply related_bind_ret. rel.
  eapply related_bind.
  { apply related_ethereum_WriteCodes. intros d. unfold range_values.
    rewrite !foldl_snoc_nil. by apply codes_agree. }
  intros [] [] _. rel.
Qed.

Lemma related_prepareExecParams v1 v2 :
  ctx_alike c1 c2 v1 v2 →
  related Q eq (prepareExecParams E v1) (prepareExecParams E v2).
Proof.
  intros Hv. unfold prepareExecParams.
  destruct v1 as [a|], v2 as [b|]; try done.
  destruct Hv as (Hhc & _ & _). apply related_bind_ret. rel.
  rel. by rewrite Hhc.
Qed.

Lemma related_execute v1 v2 execParams :
  ctx_alike c1 c2 v1 v2 →
  related Q eq (execute E v1 execParams) (execute E v2 execParams).
Proof.
  intros Hv. unfold execute.
  destruct v1 as [a|], v2 as [b|]; try done.
  destruct Hv as (_ & Ha & Hb). apply related_bind_ret. rewrite Ha, Hb.
  eapply related_bind; [by apply related_Execute, executor_agrees|].
  intros r ? <-. destruct r as [receipts err]. rel.
Qed.

Lemma related_prepareProverInput v1 v2 execParams :
  related Q (inputs_alike L)
    (prepareProverInput ro1 v1 execParams) (prepareProverInput ro2 v2 execParams).
Proof.
  unfold prepareProverInput. rel. unfold range_keys.
  rewrite !foldl_snoc_nil. simpl. by repeat split.
Qed.

Lemma related_prepare :
  related Q (results_alike L) (prepare E ro1 c1) (prepare E ro2 c2).
Proof.
  unfold prepare.
  eapply related_bind; [apply related_prepareContext|].
  intros [v1 e1] [v2 e2] [Hv He]; simpl in *; subst e2.
  destruct e1 as [err|]; [by apply related_ret|].
  eapply related_bind; [by apply related_preparePreState|].
  intros e ? <-. destruct e as [err|]; [by apply related_ret|].
  eapply related_bind; [by apply related_prepareExecParams|].
  intros [p e] ? <-. destruct e as [err|]; [by apply related_ret|].
  eapply related_bind; [by apply related_execute|].
  intros e ? <-. destruct e as [err|]; [by apply related_ret|].
  eapply related_bind; [apply related_prepareProverInput|].
  intros p1 p2 Hp. by apply related_ret.
Qed.
End RelatedStages.

(** *** The code space does not depend on the order of the writes *)

Lemma collision_free_elem_of keccak codes :
  collision_free keccak codes ↔
  ∀ c1 c2, c1 ∈ codes → c2 ∈ codes → keccak c1 = keccak c2 → c1 = c2.
Proof.
  unfold collision_free. rewrite Forall_forall.
  split.
  - intros Hfree c1 c2 Hc1 Hc2. specialize (Hfree c1 Hc1).
    rewrite Forall_forall in Hfree. by apply Hfree.
  - intros Hfree c1 Hc1. apply Forall_forall. intros c2 Hc2. by apply Hfree.
Qed.

Lemma collision_free_Permutation keccak l1 l2 :
  l1 ≡ₚ l2 → collision_free keccak l1 → collision_free keccak l2.
Proof.
  rewrite !collision_free_elem_of. intros Hperm Hfree c1 c2 Hc1 Hc2.
  apply Hfree; by rewrite Hperm.
Qed.

Lemma write_codes_Permutation (keccak : Bytes → Hash) (l1 l2 : list Bytes) :
  l1 ≡ₚ l2 → collision_free keccak l1 →
  ∀ sp : gmap Hash Bytes,
    foldl (λ sp code, <[keccak code := code]> sp) sp l1 =
    foldl (λ sp code, <[keccak code := code]> sp) sp l2.
Proof.
  induction 1 as [|x l l' Hperm IH|x y l|l l' l'' Hperm1 IH1 Hperm2 IH2];
    intros Hfree sp; simpl.
  - done.
  - apply IH. apply collision_free_elem_of. intros c1 c2 Hc1 Hc2.
    apply (proj1 (collision_free_elem_of _ _) Hfree); by right.
  - f_equal. destruct (decide (keccak x = keccak y)) as [Heq|Hne].
    + assert (x = y) as ->; [|done].
      apply (proj1 (collision_free_elem_of _ _) Hfree); [| |done].
      * right. left.
      * left.
    + by apply insert_insert_ne.
  - rewrite IH1 by done. apply IH2. by eapply collision_free_Permutation.
Qed.

Lemma WriteCodes_Permutation keccak d l1 l2 :
  l1 ≡ₚ l2 → collision_free keccak l1 →
  WriteCodes keccak d l1 = WriteCodes keccak d l2.
Proof.
  intros Hperm Hfree. unfold WriteCodes. f_equal.
  by apply write_codes_Permutation.
Qed.

(** Every code lands in the code space under a hash of its own. *)
Lemma write_codes_lookup (keccak : Bytes → Hash) codes code (sp : gmap Hash Bytes) :
  collision_free keccak codes → code ∈ codes →
  foldl (λ sp code, <[keccak code := code]> sp) sp codes !! keccak code = Some code.
Proof.
  induction codes as [|c codes IH] using rev_ind; intros Hfree Hin.
  - by apply elem_of_nil in Hin.
  - rewrite foldl_app. simpl.
    destruct (decide (keccak c = keccak code)) as [Heq|Hne].
    + assert (c = code) as ->.
      { apply (proj1 (collision_free_elem_of _ _) Hfree); [|done|done].
        apply elem_of_app. right. left. }
      apply lookup_insert_eq.
    + rewrite lookup_insert_ne by done.
      apply elem_of_app in Hin as [Hin|Hin].
      * apply IH; [|done]. apply collision_free_elem_of.
        intros c1 c2 Hc1 Hc2.
        apply (proj1 (collision_free_elem_of _ _) Hfree);
          apply elem_of_app; by left.
      * apply list_elem_of_singleton in Hin. by subst.
Qed.

Lemma WriteCodes_lookup keccak d codes code :
  collision_free keccak codes → code ∈ codes →
  codeSpace (WriteCodes keccak d codes) !! keccak code = Some code.
Proof. intros Hfree Hin. simpl. by apply write_codes_lookup. Qed.

(** ** The properties of the preparer *)

(** *** Blocks of the prover input *)

(** C1: when [Prepare] succeeds, [ProverInput.Blocks] has exactly one
    entry, and its header, transactions, uncles and withdrawals are those
    of [preflight.Block] (the conversion to a [types.Block] carrying them
    over). *)
Theorem C1_blocks_copied E ro c w proverInput w' :
  keeps_block_parts (Block_Block E) →
  Prepare E ro c w = Done (Some proverInput, None) w' →
  ∃ b, input.Blocks proverInput = [b] ∧
       input.Header b = ethrpc.Header_ (Block (w_preflight w)) ∧
       input.Transactions b = ethrpc.Transactions (Block (w_preflight w)) ∧
       input.Uncles b = ethrpc.Uncles (Block (w_preflight w)) ∧
       input.Withdrawals b = ethrpc.Withdrawals (Block (w_preflight w)).
Proof.
  intros Hconv Hrun. apply Prepare_Done in Hrun.
  apply prepare_success in Hrun
    as (valCtx & p & w1 & w2 & w3 & w4 & H1 & H2 & H3 & H4 & H5).
  apply prepareExecParams_ok in H3
    as (c' & parentHeader & s & _ & _ & _ & _ & Hp).
  assert (w_preflight w2 = w_preflight w) as Hframe.
  { rewrite (keeps_done _ _ _ _ (keeps_preparePreState E ro valCtx) H2).
    apply (keeps_done _ _ _ _ (keeps_prepareContext E _) H1). }
  rewrite Hframe in Hp.
  rewrite prepareProverInput_run in H5.
  destruct (w_state w4) as [st|]; [|done].
  injection H5 as <- _. subst p. simpl.
  destruct (Hconv (Block (w_preflight w))) as (Hh & Ht & Hu & Hw).
  eexists. split; [done|]. simpl. by rewrite Hh, Ht, Hu, Hw.
Qed.

Lemma C1_blocks_copied_witness :
  ∃ proverInput w',
    Prepare Sample.E reverse context.Background (init_world Sample.data)
    = Done (Some proverInput, None) w' ∧
    ∃ b, input.Blocks proverInput = [b] ∧
         input.Header b = ethrpc.Header_ Sample.block ∧
         input.Transactions b = ethrpc.Transactions Sample.block ∧
         input.Uncles b = ethrpc.Uncles Sample.block ∧
         input.Withdrawals b = ethrpc.Withdrawals Sample.block.
Proof.
  eexists _, _. split; [vm_compute; reflexivity|].
  eapply (C1_blocks_copied Sample.E reverse context.Background
            (init_world Sample.data)); [by intros b|].
  vm_compute. reflexivity.
Defined.

(** *** Error handling *)

(** C5: when [Prepare] fails, the error is that of the stage that failed
    under that stage's name: one of "failed to prepare validation
    context", "failed to prefill validation database", "failed to prepare
    validation exec params" and "validation execution failed", the earlier
    stages having passed. *)
Theorem C5_error_names_stage E ro c w r err w' :
  Prepare E ro c w = Done (r, Some err) w' →
  r = None ∧ stage_failure E ro (tagged c (w_preflight w)) w err.
Proof.
  intros Hrun. apply Prepare_Done in Hrun.
  apply prepare_cases in Hrun as [(err' & Heq & Hstage)|Hrun];
    [by simplify_eq|].
  by destruct Hrun as (? & ? & ? & ? & ? & ? & _ & _ & _ & _ & ? & _ & [=]).
Qed.

Lemma C5_error_names_stage_witness :
  stage_failure Sample.E reverse
    (tagged context.Background (Sample.preflight Sample.config [Sample.parent]
                                  [Sample.proof_without_nodes]))
    (init_world (Sample.preflight Sample.config [Sample.parent]
                   [Sample.proof_without_nodes]))
    "failed to prefill validation database: failed to create state nodes: proof root mismatch".
Proof.
  eapply proj2, (C5_error_names_stage Sample.E reverse context.Background
                   (init_world (Sample.preflight Sample.config [Sample.parent]
                                  [Sample.proof_without_nodes]))).
  vm_compute. reflexivity.
Defined.

(** *** When the pipeline returns *)

Section Returns.
Context (E : Collaborators) (ro : list string → list string).





End Returns.




(** *** Pre-state hydration *)

(** C3: a hydration that succeeds has made exactly these calls, in this
    order: it wrote every ancestor header to the header space, (looked up
    the genesis header,) built the node set from the pre- and post-state
    proofs between the parent root and the block's post-state root,
    committed that node set under parentRoot → genesisRoot with block
    number 0, and wrote the bytecodes of [Codes], each once, to the code
    space; the store holds the result of these writes. *)
Theorem C3_hydration_steps E ro c w w' :
  RangeOrder ro →
  preparePreState E ro (Some c) w = Done None w' →
  let inputs := w_preflight w in
  ∃ parentHeader genesisHeader nodeSet sp codes,
    Ancestors inputs !! 0%nat = Some parentHeader ∧
    GetHeaderByNumber (WriteHeaders (w_disk w) (Ancestors inputs)) 0
      = Some genesisHeader ∧
    NodeSetFromStateTransitionProofs E (gethtypes.Root parentHeader)
      (ethrpc.Root (Block inputs)) (PreStateProofs inputs) (PostStateProofs inputs)
      = inr nodeSet ∧
    TrieDB_Update E (trieSpace (w_disk w)) (gethtypes.Root parentHeader)
      (gethtypes.Root genesisHeader) 0 nodeSet = inr sp ∧
    codes ≡ₚ code_list inputs ∧
    w_calls w' =
      w_calls w ++
      [ CallWriteHeaders (Ancestors inputs);
        CallGetHeaderByNumber 0;
        CallNodeSetFromStateTransitionProofs (gethtypes.Root parentHeader)
          (ethrpc.Root (Block inputs)) (PreStateProofs inputs)
          (PostStateProofs inputs);
        CallUpdate (gethtypes.Root parentHeader) (gethtypes.Root genesisHeader)
          0 nodeSet;
        CallWriteCodes codes ] ∧
    headerSpace (w_disk w') = headerSpace (w_disk w) ++ Ancestors inputs ∧
    trieSpace (w_disk w') = sp ∧
    codeSpace (w_disk w') =
      foldl (λ sp code, <[keccak256 E code := code]> sp) (codeSpace (w_disk w)) codes.
Proof.
  intros Horder Hrun inputs. subst inputs.
  rewrite preparePreState_run in Hrun. simpl in Hrun.
  destruct (Ancestors (w_preflight w) !! 0%nat) as [parentHeader|]; [|done].
  destruct (NodeSetFromStateTransitionProofs E _ _ _ _) as [err|nodeSet] eqn:Hns;
    [done|].
  destruct (GetHeaderByNumber _ 0) as [genesisHeader|] eqn:Hgenesis; [|done].
  destruct (TrieDB_Update E _ _ _ _ _) as [err|sp] eqn:Hupdate; [done|].
  injection Hrun as <-.
  exists parentHeader, genesisHeader, nodeSet, sp,
    (ro (map_to_list (Codes (w_preflight w))).*2).
  split_and!; try done;
    first [apply Horder | simpl; by rewrite <- !app_assoc | simpl; apply foldl_snoc].
Qed.

Lemma C3_hydration_steps_witness :
  let w' := world_of (preparePreState Sample.E reverse (Some Sample.valCtx)
                        (init_world Sample.data)) in
  ∃ codes,
    codes ≡ₚ code_list Sample.data ∧
    w_calls w' =
      [ CallWriteHeaders [Sample.parent; Sample.genesis];
        CallGetHeaderByNumber 0;
        CallNodeSetFromStateTransitionProofs "r1" "r1" [Sample.proof] [Sample.proof];
        CallUpdate "r1" "r0" 0 ∅;
        CallWriteCodes codes ] ∧
    headerSpace (w_disk w') = [Sample.parent; Sample.genesis].
Proof.
  intros w'.
  destruct (C3_hydration_steps Sample.E reverse Sample.valCtx
              (init_world Sample.data) w' reverse_Permutation)
    as (parentHeader & genesisHeader & nodeSet & sp & codes
        & Hparent & Hgenesis & Hbuilt & _ & Hcodes & Hcalls & Hheaders & _);
    [vm_compute; reflexivity|].
  injection Hparent as <-.
  vm_compute in Hgenesis. injection Hgenesis as <-.
  assert (nodeSet = ∅) as ->
    by (vm_compute in Hbuilt; injection Hbuilt as Hn; by rewrite <- Hn).
  exists codes. split_and!; [exact Hcodes|exact Hcalls|exact Hheaders].
Defined.

(** C8 (amended): with the genesis header among the ancestors, the lookup
    during hydration finds a header with number 0 among them and the trie
    commit, when hydration gets to it, is labelled with its root.  With
    ancestors none of which has number 0, the lookup finds nothing; then,
    if the node set is built, reading the root of the missing header
    faults, and if building the node set fails, hydration returns the
    wrapped error of the builder instead. *)
Theorem C8_genesis_lookup E ro c w :
  headerSpace (w_disk w) = [] →
  let inputs := w_preflight w in
  let found := GetHeaderByNumber (WriteHeaders (w_disk w) (Ancestors inputs)) 0 in
  let run := preparePreState E ro (Some c) w in
  ∀ parentHeader, Ancestors inputs !! 0%nat = Some parentHeader →
  let built := NodeSetFromStateTransitionProofs E (gethtypes.Root parentHeader)
                 (ethrpc.Root (Block inputs)) (PreStateProofs inputs)
                 (PostStateProofs inputs) in
  ((∃ h, h ∈ Ancestors inputs ∧ gethtypes.Number h = 0) →
     ∃ genesisHeader,
       found = Some genesisHeader ∧
       genesisHeader ∈ Ancestors inputs ∧ gethtypes.Number genesisHeader = 0 ∧
       ∀ nodeSet, built = inr nodeSet →
         ∃ rest,
           w_calls (world_of run) =
             w_calls w ++
             [ CallWriteHeaders (Ancestors inputs);
               CallGetHeaderByNumber 0;
               CallNodeSetFromStateTransitionProofs (gethtypes.Root parentHeader)
                 (ethrpc.Root (Block inputs)) (PreStateProofs inputs)
                 (PostStateProofs inputs);
               CallUpdate (gethtypes.Root parentHeader)
                 (gethtypes.Root genesisHeader) 0 nodeSet ] ++ rest) ∧
  ((∀ h, h ∈ Ancestors inputs → gethtypes.Number h ≠ 0) →
     found = None ∧
     (∀ nodeSet, built = inr nodeSet →
        ∃ w', run = Fault NilPointerDereference w') ∧
     (∀ err, built = inl err →
        ∃ w', run = Done (Some ("failed to create state nodes: " +:+ err)) w')).
Proof.
  intros Hfresh inputs found run parentHeader Hparent built.
  subst inputs found run built.
  rewrite preparePreState_run. simpl. rewrite Hparent.
  split.
  - intros (h & Hh & Hh0).
    destruct (GetHeaderByNumber_is_Some
                (WriteHeaders (w_disk w) (Ancestors (w_preflight w))) 0 h)
      as [genesisHeader Hgenesis];
      [by rewrite WriteHeaders_headerSpace, Hfresh|done|].
    exists genesisHeader.
    pose proof (GetHeaderByNumber_Some _ _ _ Hgenesis) as [Hin Hnum].
    rewrite WriteHeaders_headerSpace, Hfresh in Hin.
    split_and!; try done.
    intros nodeSet ->. rewrite Hgenesis.
    destruct (TrieDB_Update E _ _ _ _ _) as [err|sp]; simpl.
    + exists []. by rewrite <- !app_assoc.
    + eexists [_]. by rewrite <- !app_assoc.
  - intros Hnone.
    assert (GetHeaderByNumber
              (WriteHeaders (w_disk w) (Ancestors (w_preflight w))) 0 = None)
      as Hgenesis.
    { apply GetHeaderByNumber_None. intros h.
      rewrite WriteHeaders_headerSpace, Hfresh. apply Hnone. }
    split_and!; [done| |].
    + intros nodeSet ->. rewrite Hgenesis. by eexists.
    + intros err ->. by eexists.
Qed.

Lemma C8_genesis_lookup_witness :
  GetHeaderByNumber (WriteHeaders NewMemoryDatabase [Sample.parent]) 0 = None ∧
  ∃ w',
    preparePreState Sample.E reverse
      (Some Sample.valCtx)
      (init_world (Sample.preflight Sample.config [Sample.parent] [Sample.proof]))
    = Fault NilPointerDereference w'.
Proof.
  destruct (C8_genesis_lookup Sample.E reverse
              Sample.valCtx
              (init_world (Sample.preflight Sample.config [Sample.parent]
                             [Sample.proof]))
              eq_refl Sample.parent eq_refl) as [_ Hmissing].
  destruct Hmissing as (Hnone & Hfault & _).
  - intros h Hh. apply list_elem_of_singleton in Hh as ->. discriminate.
  - split; [exact Hnone|]. exact (Hfault ∅ eq_refl).
Defined.

(** C8 as stated fails: the ancestors hold no header with number 0, yet
    hydration does not fault; the node-set builder rejects the proofs first
    and its error comes back wrapped. *)
Lemma C8_counterexample :
  (∀ h, h ∈ [Sample.parent] → gethtypes.Number h ≠ 0) ∧
  ∃ w',
    preparePreState Sample.E reverse
      (Some Sample.valCtx)
      (init_world (Sample.preflight Sample.config [Sample.parent]
                     [Sample.proof_without_nodes]))
    = Done (Some "failed to create state nodes: proof root mismatch") w'.
Proof.
  split.
  - intros h Hh. apply list_elem_of_singleton in Hh as ->. discriminate.
  - eexists. vm_compute. reflexivity.
Qed.

(** C9: with at least one ancestor, [Ancestors[0]] is in bounds in
    pre-state hydration and in exec-param building, and neither faults on
    it.  Without ancestors both accesses are out of bounds: both stages
    fault on that index, and [Prepare], whose context build does not fail,
    faults in hydration; it does not return an error. *)
Theorem C9_parent_index E ro c w :
  let inputs := w_preflight w in
  ((1 ≤ length (Ancestors inputs))%nat →
     (∃ parentHeader, Ancestors inputs !! 0%nat = Some parentHeader) ∧
     (∀ valCtx w', preparePreState E ro valCtx w ≠ Fault IndexOutOfRange w') ∧
     (∀ valCtx w', prepareExecParams E valCtx w ≠ Fault IndexOutOfRange w')) ∧
  (Ancestors inputs = [] →
     (∀ c', ∃ w', preparePreState E ro (Some c') w = Fault IndexOutOfRange w') ∧
     (∀ c', ∃ w', prepareExecParams E (Some c') w = Fault IndexOutOfRange w') ∧
     (context_builds E inputs →
        (∃ w', Prepare E ro c w = Fault IndexOutOfRange w') ∧
        ∀ r w', Prepare E ro c w ≠ Done r w')).
Proof.
  intros inputs. subst inputs. split.
  - intros Hlen.
    destruct (Ancestors (w_preflight w)) as [|parentHeader rest] eqn:Hanc;
      [simpl in Hlen; lia|].
    split_and!.
    + by exists parentHeader.
    + intros valCtx w' Hrun. unfold_run.
      destruct valCtx; [|done]. rewrite Hanc in Hrun. simpl in Hrun.
      by split_run.
    + intros valCtx w' Hrun. unfold_run.
      destruct valCtx; [|done]. rewrite Hanc in Hrun. simpl in Hrun.
      by split_run.
  - intros Hanc. split_and!.
    + intros c'. rewrite preparePreState_run. simpl. rewrite Hanc. by eexists.
    + intros c'. unfold_run. rewrite Hanc. by eexists.
    + intros Hinit. unfold context_builds in Hinit.
      assert (∃ w', Prepare E ro c w = Fault IndexOutOfRange w') as [w0 Hfault].
      { rewrite Prepare_prepare. unfold prepare, bind at 1.
        pose proof (prepareContext_run E (tagged c (w_preflight w)) w) as H1.
        simpl in H1. rewrite Hinit in H1. rewrite H1.
        unfold bind at 1. rewrite preparePreState_run. simpl. rewrite Hanc.
        by eexists. }
      split; [by exists w0|]. intros r w'. by rewrite Hfault.
Qed.

Lemma C9_parent_index_witness :
  ∃ w', Prepare Sample.E reverse context.Background
          (init_world (Sample.preflight Sample.config [] [Sample.proof]))
        = Fault IndexOutOfRange w'.
Proof.
  destruct (C9_parent_index Sample.E reverse context.Background
              (init_world (Sample.preflight Sample.config [] [Sample.proof])))
    as [_ Hempty].
  destruct (Hempty eq_refl) as (_ & _ & Hfault).
  exact (proj1 (Hfault eq_refl)).
Defined.

(** *** Stateless execution *)

(** C4: when the pipeline reaches execution, the parameters it hands to
    the executor are the preflight block, the header chain, the state
    object opened at the parent header's state root, a VM configuration
    with [StatelessSelfValidation] set, and [Validate] set; the executor is
    called on exactly these, so that, for an executor that validates, a
    recomputed post-state root other than the block's root makes the
    execution stage, and with it the preparer, fail. *)
Theorem C4_exec_params E ro post c w valCtx p w1 w2 w3 :
  ExecutorValidates post (decorated E) →
  prepareContext E c w = Done (valCtx, None) w1 →
  preparePreState E ro valCtx w1 = Done None w2 →
  prepareExecParams E valCtx w2 = Done (Some p, None) w3 →
  ∃ parentHeader s,
    Ancestors (w_preflight w) !! 0%nat = Some parentHeader ∧
    StateDB_New E (gethtypes.Root parentHeader) (w_disk w2) = inr s ∧
    w_state w3 = Some s ∧
    w_disk w3 = w_disk w2 ∧
    p = {| evm.VMConfig := {| vm.NoBaseFee := false;
                              vm.EnablePreimageRecording := false;
                              vm.StatelessSelfValidation := true |};
           evm.Block := Block_Block E (Block (w_preflight w));
           evm.Validate := true;
           evm.Chain := {| hc_config := ChainConfig (w_preflight w) |};
           evm.State := TheState |} ∧
    w_calls (world_of (execute E valCtx (Some p) w3))
      = w_calls w3 ++ [CallExecute c p] ∧
    (post p (w_disk w3) s ≠ gethtypes.Root (gethtypes.Header_ (evm.Block p)) →
     ∃ err w',
       prepare E ro c w =
       Done (None, Some ("validation execution failed: "
                         +:+ ("failed to execute block: " +:+ err))) w').
Proof.
  intros Hval H1 H2 H3.
  pose proof (keeps_done _ _ _ _ (keeps_prepareContext E c) H1) as Hf1.
  pose proof (keeps_done _ _ _ _ (keeps_preparePreState E ro valCtx) H2) as Hf2.
  pose proof H1 as H1'. rewrite prepareContext_run in H1'. simpl in H1'.
  destruct (chain_init_error E _); [done|]. injection H1' as <- _.
  destruct (prepareExecParams_ok _ _ _ _ _ H3)
    as (c' & parentHeader & s & [= <-] & Hparent & Hopen & -> & Hp).
  rewrite Hf2, Hf1 in Hparent, Hp. simpl in Hp.
  exists parentHeader, s. split_and!; try done.
  - rewrite execute_run. simpl.
    by destruct (ExecutorWithTags E _ _ _ _ _ _) as [[err|receipts] s'].
  - intros Hroot. simpl in Hroot.
    assert (evm.Validate p = true) as Hvalidate by by subst p.
    destruct (Hval c p (w_disk w2) s Hvalidate Hroot) as (err & s' & Hex).
    unfold prepare. unfold bind at 1. rewrite H1.
    unfold bind at 1. rewrite H2.
    unfold bind at 1. rewrite H3.
    unfold bind at 1. rewrite execute_run. simpl.
    unfold decorated in Hex. rewrite Hex. by eexists _, _.
Qed.

Lemma C4_exec_params_witness :
  ∃ err w',
    prepare Sample.E reverse context.Background (init_world Sample.mismatched) =
    Done (None, Some ("validation execution failed: "
                      +:+ ("failed to execute block: " +:+ err))) w'.
Proof.
  assert (ExecutorValidates Sample.postRoot (decorated Sample.E)) as Hval.
  { intros c p d s Hvalidate Hroot. unfold decorated. simpl.
    unfold Sample.executor. rewrite Hvalidate.
    rewrite bool_decide_eq_false_2 by done. by eexists _, _. }
  edestruct (C4_exec_params Sample.E reverse Sample.postRoot context.Background
               (init_world Sample.mismatched))
    as (parentHeader & s & Hparent & Hopen & _ & _ & Hp & _ & Hfail);
    [exact Hval|vm_compute; reflexivity..|].
  apply Hfail. injection Hparent as <-.
  vm_compute in Hopen. injection Hopen as <-.
  vm_compute. discriminate.
Defined.

(** *** Determinism *)

Lemma inputs_alike_eq p1 p2 : inputs_alike eq p1 p2 → p1 = p2.
Proof.
  destruct p1 as [[cfg1 bs1 [a1 c1 s1]]|], p2 as [[cfg2 bs2 [a2 c2 s2]]|];
    simpl; try done.
  intros (? & ? & ? & ? & ?). by simplify_eq.
Qed.

Lemma same_objects_refl (Q : PreflightData → Prop) w :
  Q (w_preflight w) → same_objects Q w w.
Proof. done. Qed.

(** [Prepare] on two runs side by side. *)
Lemma related_Prepare E Q ro1 ro2 L c1 c2 w :
  (∀ data d, Q data →
     WriteCodes (keccak256 E) d (ro1 (code_list data)) =
     WriteCodes (keccak256 E) d (ro2 (code_list data))) →
  (∀ l, L (ro1 l) (ro2 l)) →
  (∀ c p d s, c = tagged c1 (w_preflight w) →
     decorated E c p d s = decorated E (tagged c2 (w_preflight w)) p d s) →
  Q (w_preflight w) →
  agree Q (results_alike L) (Prepare E ro1 c1 w) (Prepare E ro2 c2 w).
Proof.
  intros Hcodes Hkeys Hex HQ. rewrite !Prepare_prepare.
  pose proof (related_prepare E Q ro1 ro2 L
                (tagged c1 (w_preflight w)) (tagged c2 (w_preflight w))
                Hcodes Hkeys (λ p d s, Hex _ p d s eq_refl)
                w w (same_objects_refl Q w HQ)) as Hrel.
  destruct (prepare E ro1 _ w) as [[p1 e1] w1|f1 w1],
           (prepare E ro2 _ w) as [[p2 e2] w2|f2 w2]; try done.
  destruct Hrel as [[Hp He] Hw]. simpl in *. subst e2.
  destruct e1; (split; [by split|done]).
Qed.

(** C6: two invocations of [Prepare] on the same input, which the runtime
    may walk through the maps in different orders, when both succeed,
    yield prover inputs with equal [ChainConfig] and [Blocks], and witness
    components [Ancestors], [Codes] and [State] with the same elements
    (the bytecodes of the input having distinct code hashes). *)
Theorem C6_deterministic E ro1 ro2 c w p1 p2 w1 w2 :
  RangeOrder ro1 → RangeOrder ro2 →
  collision_free (keccak256 E) (code_list (w_preflight w)) →
  Prepare E ro1 c w = Done (Some p1, None) w1 →
  Prepare E ro2 c w = Done (Some p2, None) w2 →
  input.ChainConfig p1 = input.ChainConfig p2 ∧
  input.Blocks p1 = input.Blocks p2 ∧
  same_elements (input.Ancestors (input.Witness_ p1))
                (input.Ancestors (input.Witness_ p2)) ∧
  same_elements (input.Codes (input.Witness_ p1)) (input.Codes (input.Witness_ p2)) ∧
  same_elements (input.State (input.Witness_ p1)) (input.State (input.Witness_ p2)).
Proof.
  intros Ho1 Ho2 Hfree H1 H2.
  assert (∀ l, ro1 l ≡ₚ ro2 l) as Hkeys.
  { intros l. by rewrite (Ho1 l), (Ho2 l). }
  pose proof (related_Prepare E
                (λ data, collision_free (keccak256 E) (code_list data))
                ro1 ro2 (≡ₚ) c c w) as Hrel.
  rewrite H1, H2 in Hrel. simpl in Hrel.
  destruct Hrel as [[Hp _] _]; try done.
  - intros data d Hdata. apply WriteCodes_Permutation; [apply Hkeys|].
    eapply collision_free_Permutation; [|exact Hdata]. symmetry. apply Ho1.
  - by intros ? p d s ->.
  - simpl in Hp. destruct Hp as (Hcfg & Hblocks & Hanc & Hcodes & Hstate).
    split_and!; [done|done|..].
    + rewrite Hanc. by split.
    + split; [done|]. intros x. by rewrite Hcodes.
    + split; [done|]. intros x. by rewrite Hstate.
Qed.

Lemma C6_deterministic_witness :
  ∃ p1 p2 w1 w2,
    Prepare Sample.E reverse context.Background (init_world Sample.data)
      = Done (Some p1, None) w1 ∧
    Prepare Sample.E id context.Background (init_world Sample.data)
      = Done (Some p2, None) w2 ∧
    input.Codes (input.Witness_ p1) = ["6002"; "6001"] ∧
    input.Codes (input.Witness_ p2) = ["6001"; "6002"] ∧
    same_elements (input.Codes (input.Witness_ p1)) (input.Codes (input.Witness_ p2)).
Proof.
  eexists _, _, _, _.
  split; [vm_compute; reflexivity|].
  split; [vm_compute; reflexivity|].
  split; [reflexivity|]. split; [reflexivity|].
  eapply (C6_deterministic Sample.E reverse id context.Background
            (init_world Sample.data)).
  - exact reverse_Permutation.
  - by intros l.
  - apply collision_free_elem_of. intros c1 c2 _ _. unfold Sample.E. simpl.
    unfold Sample.keccak. intros Heq. by injection Heq.
  - vm_compute. reflexivity.
  - vm_compute. reflexivity.
Defined.

(** *** Cancellation *)

(** C7 (amended): the pipeline itself never inspects the cancellation
    signal; it only hands the context on to the executor.  So, for an
    executor whose outcome does not depend on the signal, [Prepare] ends
    the same way whether or not cancellation was triggered: the same
    result, or the same fault, over the same store. *)
Theorem C7_token_only_forwarded E ro c w b1 b2 :
  token_blind (decorated E) →
  agree (λ _, True) eq
    (Prepare E ro (context.WithCancel b1 c) w)
    (Prepare E ro (context.WithCancel b2 c) w).
Proof.
  intros Hblind.
  pose proof (related_Prepare E (λ _, True) ro ro eq
                (context.WithCancel b1 c) (context.WithCancel b2 c) w) as Hrel.
  destruct (Prepare E ro (context.WithCancel b1 c) w) as [[p1 e1] w1|f1 w1],
           (Prepare E ro (context.WithCancel b2 c) w) as [[p2 e2] w2|f2 w2];
    simpl in *.
  - destruct Hrel as [[Hp He] Hw]; try done.
    + by intros ? p d s ->; apply (Hblind b1 b2 (tagged c (w_preflight w))).
    + simpl in *. apply inputs_alike_eq in Hp. by subst.
  - destruct Hrel; try done.
    by intros ? p d s ->; apply (Hblind b1 b2 (tagged c (w_preflight w))).
  - destruct Hrel; try done.
    by intros ? p d s ->; apply (Hblind b1 b2 (tagged c (w_preflight w))).
  - apply Hrel; try done.
    by intros ? p d s ->; apply (Hblind b1 b2 (tagged c (w_preflight w))).
Qed.

Lemma C7_token_only_forwarded_witness :
  agree (λ _, True) eq
    (Prepare Sample.E reverse (context.WithCancel true context.Background)
       (init_world Sample.data))
    (Prepare Sample.E reverse (context.WithCancel false context.Background)
       (init_world Sample.data)).
Proof.
  apply (C7_token_only_forwarded Sample.E reverse context.Background
           (init_world Sample.data) true false).
  by intros b1 b2 c p d s.
Defined.

(** C7 as stated fails: cancellation is triggered before [Prepare] is
    called, yet the ancestors are written, the block is executed and a
    prover input comes back; and when hydration fails under a triggered
    signal, the error is the one of hydration, not a cancellation. *)
Lemma C7_counterexample :
  context.cancelled Sample.cancelledCtx = true ∧
  (∃ proverInput w',
     Prepare Sample.E reverse Sample.cancelledCtx (init_world Sample.data)
       = Done (Some proverInput, None) w' ∧
     CallWriteHeaders [Sample.parent; Sample.genesis] ∈ w_calls w' ∧
     ∃ p, CallExecute (tagged Sample.cancelledCtx Sample.data) p ∈ w_calls w') ∧
  (∃ w',
     Prepare Sample.E reverse Sample.cancelledCtx
       (init_world (Sample.preflight Sample.config [Sample.parent; Sample.genesis]
                      [Sample.proof_without_nodes]))
       = Done (None, Some "failed to prefill validation database: failed to create state nodes: proof root mismatch") w' ∧
     CallWriteHeaders [Sample.parent; Sample.genesis] ∈ w_calls w').
Proof.
  split; [done|]. split.
  - eexists _, _. split; [vm_compute; reflexivity|]. split.
    + apply list_elem_of_In. simpl. auto.
    + eexists. apply list_elem_of_In. simpl. do 7 right. left. reflexivity.
  - eexists. split; [vm_compute; reflexivity|].
    apply list_elem_of_In. simpl. auto.
Qed.

(** ** Further properties of the pipeline *)

(** *** [Prepare] and [prepare] *)

Lemma Prepare_prepare_tagged E ro c w :
  Prepare E ro c w = prepare E ro (tagged c (w_preflight w)) w.
Proof.
  rewrite Prepare_prepare.
  destruct (prepare E ro _ w) as [r w'|f w'] eqn:Hrun; [|done].
  by destruct (prepare_shape _ _ _ _ _ _ Hrun) as [[proverInput ->]|[err ->]].
Qed.

(** [Prepare] is [prepare] on the tagged context, with the same result, the
    same fault and the same world at the end: the nil it puts in place of
    the input on the error path changes nothing, since [prepare] never
    returns an input next to an error. *)
Theorem Prepare_is_prepare_tagged E ro c w :
  Prepare E ro c w = prepare E ro (tagged c (w_preflight w)) w.
Proof.
  rewrite Prepare_prepare.
  destruct (prepare E ro (tagged c (w_preflight w)) w) as [[inputs err] w'|f w']
    eqn:Hrun; [|done].
  destruct (prepare_shape _ _ _ _ _ _ Hrun) as [[proverInput Hok]|[e Herr]].
  - injection Hok as -> ->. done.
  - injection Herr as -> ->. done.
Qed.

(** [big.Int.Int64] is exact on the numbers that fit a signed 64-bit
    word. *)
Lemma Int64_in_range z : - 2 ^ 63 ≤ z < 2 ^ 63 → Int64 z = z.
Proof.
  intros Hz. unfold Int64, to_int64.
  destruct (decide (z < 0)) as [Hneg|Hpos].
  - rewrite (Z.abs_neq z) by lia.
    destruct (decide (z = - 2 ^ 63)) as [->|Hmin]; [done|].
    rewrite (Z.mod_small (- z)) by lia.
    destruct (decide (- z < 2 ^ 63)); [|lia].
    rewrite Z.opp_involutive.
    replace (z `mod` 2 ^ 64) with (z + 2 ^ 64)
      by (apply Z.mod_unique with (-1); lia).
    destruct (decide (z + 2 ^ 64 < 2 ^ 63)); lia.
  - rewrite (Z.abs_eq z) by lia. rewrite (Z.mod_small z) by lia.
    destruct (decide (z < 2 ^ 63)); lia.
Qed.

(** *** Assembly *)

(** Assembly only reads: it leaves the world as it is, and lists every
    code and every node of the witness of the state object exactly once,
    the headers as the witness has them. *)
Theorem prepareProverInput_lists ro valCtx p w st :
  RangeOrder ro →
  w_state w = Some st →
  ∃ proverInput,
    prepareProverInput ro valCtx (Some p) w = Done (Some proverInput) w ∧
    input.Ancestors (input.Witness_ proverInput) = stateless.Headers (witness st) ∧
    NoDup (input.Codes (input.Witness_ proverInput)) ∧
    (∀ code, code ∈ input.Codes (input.Witness_ proverInput)
             ↔ code ∈ stateless.Codes (witness st)) ∧
    NoDup (input.State (input.Witness_ proverInput)) ∧
    (∀ node, node ∈ input.State (input.Witness_ proverInput)
             ↔ node ∈ stateless.State (witness st)).
Proof.
  intros Horder Hst. rewrite prepareProverInput_run, Hst.
  eexists. split; [done|]. simpl. split_and!.
  - done.
  - rewrite (Horder _). apply NoDup_elements.
  - intros code. rewrite (Horder _). apply elem_of_elements.
  - rewrite (Horder _). apply NoDup_elements.
  - intros node. rewrite (Horder _). apply elem_of_elements.
Qed.

Lemma prepareProverInput_lists_witness :
  ∃ proverInput,
    NoDup (input.Codes (input.Witness_ proverInput)) ∧
    (∀ code, code ∈ input.Codes (input.Witness_ proverInput)
             ↔ code ∈ ({[ "6001"; "6002" ]} : gset string)).
Proof.
  destruct (prepareProverInput_lists reverse (Some Sample.valCtx)
              {| evm.VMConfig := {| vm.NoBaseFee := false;
                                    vm.EnablePreimageRecording := false;
                                    vm.StatelessSelfValidation := true |};
                 evm.Block := Sample.convert Sample.block;
                 evm.Validate := true;
                 evm.Chain := {| hc_config := Sample.config |};
                 evm.State := TheState |}
              {| w_preflight := Sample.data; w_disk := NewMemoryDatabase;
                 w_state := Some {| originalRoot := "r1";
                                    witness := {| stateless.Headers := [];
                                                  stateless.Codes := {[ "6001"; "6002" ]};
                                                  stateless.State := {[ "r1" ]} |} |};
                 w_calls := [] |}
              _ reverse_Permutation eq_refl)
    as (proverInput & _ & _ & Hnodup & Hcodes & _).
  exists proverInput. split; [exact Hnodup|exact Hcodes].
Defined.

(** *** Hydration that fails *)

(** A hydration that returns an error has written the ancestors and no
    bytecode: the error is that of the node-set builder, and then the trie
    database was not touched, or that of the trie database. *)
Theorem preparePreState_failure E ro c w err w' :
  preparePreState E ro (Some c) w = Done (Some err) w' →
  let inputs := w_preflight w in
  ∃ parentHeader calls,
    Ancestors inputs !! 0%nat = Some parentHeader ∧
    w_calls w' =
      w_calls w ++
      [ CallWriteHeaders (Ancestors inputs);
        CallGetHeaderByNumber 0;
        CallNodeSetFromStateTransitionProofs (gethtypes.Root parentHeader)
          (ethrpc.Root (Block inputs)) (PreStateProofs inputs)
          (PostStateProofs inputs) ] ++ calls ∧
    ((∃ e, NodeSetFromStateTransitionProofs E (gethtypes.Root parentHeader)
             (ethrpc.Root (Block inputs)) (PreStateProofs inputs)
             (PostStateProofs inputs) = inl e ∧
           err = "failed to create state nodes: " +:+ e ∧
           calls = []) ∨
     (∃ genesisHeader nodeSet e,
         TrieDB_Update E (trieSpace (w_disk w)) (gethtypes.Root parentHeader)
           (gethtypes.Root genesisHeader) 0 nodeSet = inl e ∧
         err = "failed to update trie db with state nodes: " +:+ e ∧
         calls = [CallUpdate (gethtypes.Root parentHeader)
                    (gethtypes.Root genesisHeader) 0 nodeSet])).
Proof.
  intros Hrun inputs. subst inputs.
  rewrite preparePreState_run in Hrun. simpl in Hrun.
  destruct (Ancestors (w_preflight w) !! 0%nat) as [parentHeader|]; [|done].
  destruct (NodeSetFromStateTransitionProofs E _ _ _ _) as [e|nodeSet] eqn:Hbuilt.
  - injection Hrun as <- <-. exists parentHeader, []. split_and!; [done| |].
    + simpl. by rewrite <- !app_assoc.
    + left. by exists e.
  - destruct (GetHeaderByNumber _ 0) as [genesisHeader|]; [|done].
    destruct (TrieDB_Update E _ _ _ _ _) as [e|sp] eqn:Hupdate; [|done].
    injection Hrun as <- <-. eexists parentHeader, [_]. split_and!; [done| |].
    + simpl. by rewrite <- !app_assoc.
    + right. by exists genesisHeader, nodeSet, e.
Qed.

Lemma preparePreState_failure_witness :
  ∃ w',
    preparePreState Sample.E reverse (Some Sample.valCtx)
      (init_world (Sample.preflight Sample.config [Sample.parent; Sample.genesis]
                     [Sample.proof_without_nodes]))
    = Done (Some "failed to create state nodes: proof root mismatch") w' ∧
    w_calls w' =
      [ CallWriteHeaders [Sample.parent; Sample.genesis];
        CallGetHeaderByNumber 0;
        CallNodeSetFromStateTransitionProofs "r1" "r1"
          [Sample.proof_without_nodes] [Sample.proof] ].
Proof.
  eexists. split; [vm_compute; reflexivity|].
  edestruct (preparePreState_failure Sample.E reverse Sample.valCtx
               (init_world (Sample.preflight Sample.config
                              [Sample.parent; Sample.genesis]
                              [Sample.proof_without_nodes])))
    as (parentHeader & calls & Hparent & Hcalls & [(e & _ & _ & ->)|Hupdate]);
    [vm_compute; reflexivity| |].
  - injection Hparent as <-. exact Hcalls.
  - destruct Hupdate as (? & ? & ? & Hupdate & _). vm_compute in Hupdate.
    discriminate.
Defined.

(** *** The pipeline, answer by answer *)

(** [prepare] as a case analysis on what the collaborators answer. *)
Lemma prepare_run E ro c w :
  let inputs := w_preflight w in
  let w1 := log_call (CallNewChain (ChainConfig inputs))
              (with_disk NewMemoryDatabase w) in
  prepare E ro c w =
  match chain_init_error E (ChainConfig inputs) with
  | Some e =>
      Done (None, Some ("failed to prepare validation context: "
                        +:+ ("failed to create chain: " +:+ e))) w1
  | None =>
      match preparePreState E ro (Some (built_context c inputs)) w1 with
      | Fault f w2 => Fault f w2
      | Done (Some e) w2 =>
          Done (None, Some ("failed to prefill validation database: " +:+ e)) w2
      | Done None w2 =>
          match Ancestors inputs !! 0%nat with
          | None => Fault IndexOutOfRange w2
          | Some parentHeader =>
              let root := gethtypes.Root parentHeader in
              let w3 := log_call (CallStateNew root) w2 in
              match StateDB_New E root (w_disk w2) with
              | inl e =>
                  Done (None,
                        Some ("failed to prepare validation exec params: "
                              +:+ ("failed to create pre-state from parent root "
                                   +:+ root +:+ ": " +:+ e))) w3
              | inr s =>
                  let p := exec_params E inputs in
                  let '(r, s') := decorated E c p (w_disk w2) s in
                  let w4 := with_state s' (log_call (CallExecute c p) w3) in
                  match r with
                  | inl e =>
                      Done (None, Some ("validation execution failed: "
                                        +:+ ("failed to execute block: " +:+ e))) w4
                  | inr _ => Done (Some (assembled ro p s'), None) w4
                  end
              end
          end
      end
  end.
Proof.
  intros inputs w1. subst inputs w1.
  unfold prepare. unfold bind at 1.
  pose proof (prepareContext_run E c w) as H1. simpl in H1.
  destruct (chain_init_error E _) as [e|]; rewrite H1; [done|]. clear H1.
  unfold bind at 1. fold (built_context c (w_preflight w)).
  set (w1 := log_call _ _).
  destruct (preparePreState E ro _ w1) as [[e|] w2|f w2] eqn:H2; [done| |done].
  pose proof (keeps_done _ _ _ _ (keeps_preparePreState E ro _) H2) as Hframe.
  change (w_preflight w1) with (w_preflight w) in Hframe.
  clear H2. clearbody w1. unfold_run. rewrite Hframe.
  destruct (Ancestors (w_preflight w) !! 0%nat) as [parentHeader|]; [|done].
  simpl. destruct (StateDB_New E _ _) as [e|s]; [done|]. simpl.
  unfold decorated, exec_params. simpl.
  destruct (ExecutorWithTags E _ _ _ _ _ _) as [[e|receipts] s']; simpl.
  - reflexivity.
  - unfold range_keys. rewrite !foldl_snoc_nil. reflexivity.
Qed.

(** *** Errors and faults, traced to their origin *)



(** [Prepare] faults in two situations only, both in hydration after a
    context was built: there is no ancestor to index, or the node set was
    built and the lookup of the genesis header found nothing.  No later
    stage faults. *)
Theorem Prepare_faults_iff E ro c w f :
  let inputs := w_preflight w in
  (∃ w', Prepare E ro c w = Fault f w') ↔
  chain_init_error E (ChainConfig inputs) = None ∧
  ((Ancestors inputs = [] ∧ f = IndexOutOfRange) ∨
   (∃ parentHeader nodeSet,
       Ancestors inputs !! 0%nat = Some parentHeader ∧
       NodeSetFromStateTransitionProofs E (gethtypes.Root parentHeader)
         (ethrpc.Root (Block inputs)) (PreStateProofs inputs)
         (PostStateProofs inputs) = inr nodeSet ∧
       GetHeaderByNumber (WriteHeaders NewMemoryDatabase (Ancestors inputs)) 0
         = None ∧
       f = NilPointerDereference)).
Proof.
  intros inputs. subst inputs.
  rewrite Prepare_prepare_tagged, prepare_run. simpl.
  rewrite preparePreState_run. simpl.
  destruct (chain_init_error E _) as [e|].
  { split; [by intros [w' ?]|by intros [? _]]. }
  destruct (Ancestors (w_preflight w)) as [|parentHeader rest] eqn:Hanc; simpl.
  { split.
    - intros [w' Hrun]. injection Hrun as <- _. split; [done|]. by left.
    - intros [_ [[_ ->]|(ph & ns & Hph & _)]]; [by eexists|done]. }
  split.
  - intros [w' Hrun]. split; [done|]. right.
    destruct (NodeSetFromStateTransitionProofs E _ _ _ _) as [e|nodeSet] eqn:Hbuilt;
      [done|].
    destruct (GetHeaderByNumber _ 0) as [genesisHeader|] eqn:Hgenesis.
    + exfalso.
      destruct (TrieDB_Update E _ _ _ _ _) as [e|sp]; [done|].
      destruct (StateDB_New E _ _) as [e|s]; [done|].
      by destruct (decorated E _ _ _ _) as [[e|receipts] s'].
    + injection Hrun as <- _. by exists parentHeader, nodeSet.
  - intros [_ [[Hnil _]|(ph & ns & Hph & Hbuilt & Hgenesis & ->)]]; [done|].
    injection Hph as <-. rewrite Hbuilt, Hgenesis. by eexists.
Qed.

(** *** The calls of a run *)



(** The executor is called only at the very end of a run through all the
    stages, whatever the outcome: a run in which context build, hydration
    or exec-param building fails or faults never reaches it. *)
Theorem executor_called_last E ro c data c' p :
  let w' := world_of (Prepare E ro c (init_world data)) in
  CallExecute c' p ∈ w_calls w' →
  c' = tagged c data ∧ p = exec_params E data ∧
  ∃ parentHeader genesisHeader nodeSet,
    w_calls w' =
      pipeline_calls c' data parentHeader genesisHeader nodeSet
        (ro (code_list data)) p.
Proof.
  intros w'. subst w'.
  rewrite Prepare_prepare_tagged, prepare_run. simpl.
  destruct (chain_init_error E _) as [e|]; simpl.
  { intros Hin. by repeat (apply elem_of_cons in Hin as [?|Hin]; [done|]);
      apply elem_of_nil in Hin. }
  rewrite preparePreState_run. simpl.
  destruct (Ancestors data !! 0%nat) as [parentHeader|]; simpl.
  2:{ intros Hin. by repeat (apply elem_of_cons in Hin as [?|Hin]; [done|]);
        apply elem_of_nil in Hin. }
  destruct (NodeSetFromStateTransitionProofs E _ _ _ _) as [e|nodeSet]; simpl.
  { intros Hin. by repeat (apply elem_of_cons in Hin as [?|Hin]; [done|]);
      apply elem_of_nil in Hin. }
  destruct (GetHeaderByNumber _ 0) as [genesisHeader|]; simpl.
  2:{ intros Hin. by repeat (apply elem_of_cons in Hin as [?|Hin]; [done|]);
        apply elem_of_nil in Hin. }
  destruct (TrieDB_Update E _ _ _ _ _) as [e|sp]; simpl.
  { intros Hin. by repeat (apply elem_of_cons in Hin as [?|Hin]; [done|]);
      apply elem_of_nil in Hin. }
  destruct (StateDB_New E _ _) as [e|s]; simpl.
  { intros Hin. by repeat (apply elem_of_cons in Hin as [?|Hin]; [done|]);
      apply elem_of_nil in Hin. }
  assert (∀ calls : list Call,
            calls =
              pipeline_calls (tagged c data) data parentHeader genesisHeader
                nodeSet (ro (code_list data)) (exec_params E data) →
            CallExecute c' p ∈ calls →
            c' = tagged c data ∧ p = exec_params E data ∧
            ∃ parentHeader genesisHeader nodeSet,
              calls =
                pipeline_calls c' data parentHeader genesisHeader nodeSet
                  (ro (code_list data)) p) as Hlast.
  { intros calls -> Hin. unfold pipeline_calls in Hin.
    repeat (apply elem_of_cons in Hin as [Heq|Hin]; [try done|]).
    - injection Heq as -> ->. split_and!; [done..|].
      by exists parentHeader, genesisHeader, nodeSet.
    - by apply elem_of_nil in Hin. }
  destruct (decorated E _ _ _ _) as [[e|receipts] s']; simpl;
    by apply (Hlast _ eq_refl).
Qed.

Lemma executor_called_last_witness :
  ∃ p, p = exec_params Sample.E Sample.data ∧
       CallExecute (tagged context.Background Sample.data) p
       ∈ w_calls (world_of (Prepare Sample.E reverse context.Background
                              (init_world Sample.data))).
Proof.
  assert (CallExecute (tagged context.Background Sample.data)
            (exec_params Sample.E Sample.data)
          ∈ w_calls (world_of (Prepare Sample.E reverse context.Background
                                 (init_world Sample.data)))) as Hin.
  { apply list_elem_of_In. vm_compute. do 7 right. left. reflexivity. }
  destruct (executor_called_last Sample.E reverse context.Background Sample.data
              _ _ Hin) as (_ & Hp & _).
  eexists. split; [exact Hp|exact Hin].
Defined.

(** The context of a call of the executor is the tagged one. *)
Lemma CallExecute_context E ro c data c' p :
  CallExecute c' p ∈ w_calls (world_of (Prepare E ro c (init_world data))) →
  c' = tagged c data.
Proof.
  rewrite Prepare_prepare_tagged, prepare_run. simpl.
  destruct (chain_init_error E _) as [e|]; simpl.
  { intros Hin. by repeat (apply elem_of_cons in Hin as [?|Hin]; [done|]);
      apply elem_of_nil in Hin. }
  rewrite preparePreState_run. simpl.
  destruct (Ancestors data !! 0%nat) as [parentHeader|]; simpl.
  2:{ intros Hin. by repeat (apply elem_of_cons in Hin as [?|Hin]; [done|]);
        apply elem_of_nil in Hin. }
  destruct (NodeSetFromStateTransitionProofs E _ _ _ _) as [e|nodeSet]; simpl.
  { intros Hin. by repeat (apply elem_of_cons in Hin as [?|Hin]; [done|]);
      apply elem_of_nil in Hin. }
  destruct (GetHeaderByNumber _ 0) as [genesisHeader|]; simpl.
  2:{ intros Hin. by repeat (apply elem_of_cons in Hin as [?|Hin]; [done|]);
        apply elem_of_nil in Hin. }
  destruct (TrieDB_Update E _ _ _ _ _) as [e|sp]; simpl.
  { intros Hin. by repeat (apply elem_of_cons in Hin as [?|Hin]; [done|]);
      apply elem_of_nil in Hin. }
  destruct (StateDB_New E _ _) as [e|s]; simpl.
  { intros Hin. by repeat (apply elem_of_cons in Hin as [?|Hin]; [done|]);
      apply elem_of_nil in Hin. }
  destruct (decorated E _ _ _ _) as [[e|receipts] s']; simpl; intros Hin;
    repeat (apply elem_of_cons in Hin as [Heq|Hin]; [try done|]);
    solve [by injection Heq as -> _ | by apply elem_of_nil in Hin].
Qed.

(** Whenever [Prepare] calls the executor, the context it passes carries
    the cancellation signal and the tags of the context [Prepare] was
    called with, names the component "prepare" and adds, after the caller's
    tags, the chain id, the block number (exact when it fits a signed
    64-bit word) and the block hash. *)
Theorem executor_context E ro c data c' p :
  - 2 ^ 63 ≤ ethrpc.Number (Block data) < 2 ^ 63 →
  CallExecute c' p ∈ w_calls (world_of (Prepare E ro c (init_world data))) →
  context.cancelled c' = context.cancelled c ∧
  context.component c' = "prepare" ∧
  context.tags c' =
    context.tags c ++
    [ ("chain.id", context.TagString (pretty (params.ChainID (ChainConfig data))));
      ("block.number", context.TagInt64 (ethrpc.Number (Block data)));
      ("block.hash", context.TagString (ethrpc.Hash_ (Block data))) ].
Proof.
  intros Hnumber Hin. apply CallExecute_context in Hin as ->.
  unfold tagged. simpl. by rewrite Int64_in_range.
Qed.

Lemma executor_context_witness :
  ∃ c' p,
    CallExecute c' p
    ∈ w_calls (world_of (Prepare Sample.E reverse Sample.cancelledCtx
                           (init_world Sample.data))) ∧
    context.cancelled c' = true ∧
    context.component c' = "prepare" ∧
    context.tags c' =
      [ ("chain.id", context.TagString "1");
        ("block.number", context.TagInt64 2);
        ("block.hash", context.TagString "h2") ].
Proof.
  assert (CallExecute (tagged Sample.cancelledCtx Sample.data)
            (exec_params Sample.E Sample.data)
          ∈ w_calls (world_of (Prepare Sample.E reverse Sample.cancelledCtx
                                 (init_world Sample.data)))) as Hin.
  { apply list_elem_of_In. vm_compute. do 7 right. left. reflexivity. }
  destruct (executor_context Sample.E reverse Sample.cancelledCtx Sample.data
              _ _ ltac:(unfold ethrpc.Number; simpl; lia) Hin)
    as (Hcancelled & Hcomponent & Htags).
  eexists _, _. split; [exact Hin|].
  split; [exact Hcancelled|]. split; [exact Hcomponent|exact Htags].
Defined.

(** *** One store per invocation *)

(** Context build starts every run on a store of its own: what the world
    held before (a store, a state object, earlier calls) has no part in the
    outcome nor in the store the run leaves. *)
Theorem Prepare_fresh_store E ro c w1 w2 :
  w_preflight w1 = w_preflight w2 →
  same_outcome (Prepare E ro c w1) (Prepare E ro c w2).
Proof.
  intros Hinputs.
  rewrite !Prepare_prepare_tagged, !prepare_run. simpl.
  rewrite !preparePreState_run. simpl. rewrite Hinputs.
  destruct (chain_init_error E _) as [e|]; [done|].
  destruct (Ancestors (w_preflight w2) !! 0%nat) as [parentHeader|]; [|done].
  destruct (NodeSetFromStateTransitionProofs E _ _ _ _) as [e|nodeSet]; [done|].
  destruct (GetHeaderByNumber _ 0) as [genesisHeader|]; [|done].
  destruct (TrieDB_Update E _ _ _ _ _) as [e|sp]; [done|].
  destruct (StateDB_New E _ _) as [e|s]; [done|].
  by destruct (decorated E _ _ _ _) as [[e|receipts] s'].
Qed.

Lemma Prepare_fresh_store_witness :
  same_outcome
    (Prepare Sample.E reverse context.Background (init_world Sample.data))
    (Prepare Sample.E reverse context.Background
       {| w_preflight := Sample.data;
          w_disk := {| headerSpace := [Sample.genesis];
                       codeSpace := {[ "0x00" := "00" ]};
                       trieSpace := ∅ |};
          w_state := None;
          w_calls := [CallGetHeaderByNumber 7] |}).
Proof.
  apply (Prepare_fresh_store Sample.E reverse context.Background
           (init_world Sample.data)). reflexivity.
Defined.

(** *** The order of the runtime and the outcome *)

(** The order in which the runtime walks the maps changes neither whether
    [Prepare] succeeds, nor the error it returns, nor the fault it stops
    on, nor the store it leaves; on success the two prover inputs differ
    at most in the order of the witness codes and nodes. *)
Theorem Prepare_outcome_order E ro1 ro2 c w :
  RangeOrder ro1 → RangeOrder ro2 →
  collision_free (keccak256 E) (code_list (w_preflight w)) →
  agree (λ data, collision_free (keccak256 E) (code_list data))
    (results_alike (≡ₚ)) (Prepare E ro1 c w) (Prepare E ro2 c w).
Proof.
  intros Ho1 Ho2 Hfree.
  assert (∀ l, ro1 l ≡ₚ ro2 l) as Hkeys.
  { intros l. by rewrite (Ho1 l), (Ho2 l). }
  apply related_Prepare; [|done| |done].
  - intros data d Hdata. apply WriteCodes_Permutation; [apply Hkeys|].
    eapply collision_free_Permutation; [|exact Hdata]. symmetry. apply Ho1.
  - by intros ? p d s ->.
Qed.

Lemma Prepare_outcome_order_witness :
  agree (λ data, collision_free Sample.keccak (code_list data))
    (results_alike (≡ₚ))
    (Prepare Sample.E reverse context.Background (init_world Sample.data))
    (Prepare Sample.E id context.Background (init_world Sample.data)).
Proof.
  apply (Prepare_outcome_order Sample.E reverse id context.Background
           (init_world Sample.data)).
  - exact reverse_Permutation.
  - by intros l.
  - apply collision_free_elem_of. intros c1 c2 _ _. unfold Sample.E. simpl.
    unfold Sample.keccak. intros Heq. by injection Heq.
Defined.

(** *** Success *)

(** [Prepare] succeeds exactly when there is a parent header, every
    collaborator succeeds in turn and the genesis header is found; the
    state is opened and the block executed on the hydrated store, and the
    prover input is assembled from the state object the executor leaves. *)
Theorem Prepare_succeeds_iff E ro c w proverInput :
  let inputs := w_preflight w in
  (∃ w', Prepare E ro c w = Done (Some proverInput, None) w') ↔
  chain_init_error E (ChainConfig inputs) = None ∧
  ∃ parentHeader genesisHeader nodeSet sp s receipts s',
    Ancestors inputs !! 0%nat = Some parentHeader ∧
    NodeSetFromStateTransitionProofs E (gethtypes.Root parentHeader)
      (ethrpc.Root (Block inputs)) (PreStateProofs inputs) (PostStateProofs inputs)
      = inr nodeSet ∧
    GetHeaderByNumber (WriteHeaders NewMemoryDatabase (Ancestors inputs)) 0
      = Some genesisHeader ∧
    TrieDB_Update E ∅ (gethtypes.Root parentHeader)
      (gethtypes.Root genesisHeader) 0 nodeSet = inr sp ∧
    StateDB_New E (gethtypes.Root parentHeader) (hydrated_disk E ro inputs sp)
      = inr s ∧
    decorated E (tagged c inputs) (exec_params E inputs)
      (hydrated_disk E ro inputs sp) s = (inr receipts, s') ∧
    proverInput = assembled ro (exec_params E inputs) s'.
Proof.
  intros inputs. subst inputs.
  rewrite Prepare_prepare_tagged, prepare_run. simpl.
  rewrite preparePreState_run. simpl. unfold hydrated_disk, code_list.
  split.
  - intros [w' Hrun].
    destruct (chain_init_error E _) as [e|]; [done|]. split; [done|].
    destruct (Ancestors (w_preflight w) !! 0%nat) as [parentHeader|]; [|done].
    destruct (NodeSetFromStateTransitionProofs E _ _ _ _) as [e|nodeSet] eqn:Hbuilt;
      [done|].
    destruct (GetHeaderByNumber _ 0) as [genesisHeader|]; [|done].
    destruct (TrieDB_Update E _ _ _ _ _) as [e|sp] eqn:Hupdate; [done|].
    simpl in Hrun.
    destruct (StateDB_New E _ _) as [e|s] eqn:Hopen; [done|].
    destruct (decorated E _ _ _ _) as [[e|receipts] s'] eqn:Hex; [done|].
    injection Hrun as <- _.
    by exists parentHeader, genesisHeader, nodeSet, sp, s, receipts, s'.
  - intros (-> & parentHeader & genesisHeader & nodeSet & sp & s & receipts & s'
            & -> & -> & -> & Hupdate & Hopen & Hex & ->).
    rewrite Hupdate. simpl. rewrite Hopen, Hex. by eexists.
Qed.
